(** * s3.File of the vfs library: a shallow embedding of [s3/file.go]

    The Go methods of [*File] are embedded as computations over an explicit
    state made of the receiver (the [File] the pointer designates) and the
    chronological log of every call that leaves the process: requests to the
    S3 client, operations on the local temporary file, sleeps.  The answers of
    the outside world are given by oracles that see the log written so far, so
    a remote object can be absent at one request and visible at the next. *)

From Stdlib Require Import String Ascii List ZArith Lia Bool Arith.
From Stdlib Require Import Numbers.DecimalString.
From Equations Require Import Equations.
From Equations.Prop Require Import Logic.
Import ListNotations.

Local Open Scope string_scope.
Local Open Scope Z_scope.
Local Open Scope list_scope.

Set Implicit Arguments.

(** ** Go values *)

(** A value of the Go interface [error], by its dynamic type.  The code
    observes three things of an error: whether it implements [awserr.Error]
    (and then its [Code()]), whether [os.IsNotExist] holds of it, and that it
    is not nil. *)
Inductive error : Type :=
| AwsError (code message : string)          (* implements awserr.Error *)
| PathError (notExist : bool) (message : string) (* os.PathError and the like *)
| ErrorString (message : string).           (* errors.New *)

(** [os.IsNotExist]. *)
Definition os_IsNotExist (e : error) : bool :=
  match e with
  | PathError ne _ => ne
  | _ => false
  end.

(** The type assertion [err.(awserr.Error)] followed by [.Code()]: [None]
    stands for the run-time panic of a failed single-value assertion. *)
Definition awserr_Code (e : error) : option string :=
  match e with
  | AwsError c _ => Some c
  | _ => None
  end.

(** [s3.ErrCodeNoSuchKey] of the AWS SDK. *)
Definition s3_ErrCodeNoSuchKey : string := "NoSuchKey".

(** A Go [(T, error)] result of the outside world. *)
Inductive result (A : Type) : Type :=
| Ok (a : A)
| Err (e : error).
Arguments Ok {A} a.
Arguments Err {A} e.

(** Go's [int] on a 64-bit platform, as a [Z] with the wrap-around written
    out. *)
Definition int_wrap (z : Z) : Z := (z + 2 ^ 63) mod 2 ^ 64 - 2 ^ 63.
Definition int_add (a b : Z) : Z := int_wrap (a + b).
Definition int_eqb (a b : Z) : bool := int_wrap a =? int_wrap b.

(** [fmt.Sprintf("%d", z)]. *)
Definition sprint_d (z : Z) : string := NilZero.string_of_int (Z.to_int z).

(** ** The outside world *)

(** What is logged: one event per call that leaves [file.go]. *)
Inductive event : Type :=
| EHeadObject (bucket key : string)
| EGetObject (bucket key : string)
| EUpload (bucket key sse : string) (body : list Byte.byte)
| ECopyObject (bucket key copySource : string)
| EDeleteObject (bucket key : string)
| ETempFile (pattern : string)
| EIoCopy (name : string) (body : list Byte.byte)
| ESeekStart (name : string)
| ERemove (name : string)
| EFileClose (name : string)
| EOtherClose (name : string)
| ESleep (seconds : Z).

Definition trace : Type := list event.

(** [*s3.HeadObjectOutput], the two fields [file.go] reads. *)
Record HeadObjectOutput : Type := {
  LastModified_ : Z;
  ContentLength : Z
}.

(** What [s3manager.Uploader.Upload] did with the [bytes.Buffer] it was
    given as body: the buffer is a reader, so the bytes the uploader has read
    are gone from it.  On success everything was read. *)
Inductive upload_result : Type :=
| UploadOk
| UploadErr (e : error) (consumed : nat).

(** The client [fs.Client] (an [s3iface.S3API]) and the uploader built on it.
    Each answer may depend on the log so far. *)
Record S3API : Type := {
  api_HeadObject : trace -> string -> string -> result HeadObjectOutput;
  api_GetObject : trace -> string -> string -> result (list Byte.byte);
  api_CopyObject : trace -> string -> string -> string -> option error;
  api_DeleteObject : trace -> string -> string -> option error;
  api_Upload : trace -> string -> string -> string -> list Byte.byte -> upload_result
}.

(** [*FileSystem]: the struct holds the client. *)
Record FileSystem : Type := { Client : S3API }.

(** The local operating system and the Go runtime, as far as [file.go] calls
    them: [ioutil.TempFile], [io.Copy] into the temporary file, [Seek(0, 0)] on
    it, [os.Remove], [Close] of the temporary file, [time.Now().UnixNano()],
    and the pure [path.Base], [path.Dir] and [path.Join]. *)
Record OS : Type := {
  os_TempFile : trace -> string -> result string;
  os_IoCopy : trace -> string -> list Byte.byte -> option error;
  os_SeekStart : trace -> string -> option error;
  os_Remove : trace -> string -> option error;
  os_FileClose : trace -> string -> option error;
  os_UnixNano : trace -> Z;
  path_Base : string -> string;
  path_Dir : string -> string;
  path_Join : string -> string -> string
}.

(** [*os.File] of the local mirror: its name, its content and its cursor. *)
Record OsFile : Type := {
  tf_name : string;
  tf_data : list Byte.byte;
  tf_pos : Z
}.

(** ** The File *)

Record File : Type := {
  fileSystem : FileSystem;
  bucket : string;
  key : string;
  tempFile : option OsFile;
  writeBuffer : option (list Byte.byte)
}.

Definition set_tempFile (f : File) (t : option OsFile) : File :=
  {| fileSystem := fileSystem f; bucket := bucket f; key := key f;
     tempFile := t; writeBuffer := writeBuffer f |}.

Definition set_writeBuffer (f : File) (b : option (list Byte.byte)) : File :=
  {| fileSystem := fileSystem f; bucket := bucket f; key := key f;
     tempFile := tempFile f; writeBuffer := b |}.

(** ** Computations *)

(** The state a method runs on: the receiver and the log. *)
Record St : Type := {
  self : File;
  log : trace
}.

(** A Go call either returns or panics. *)
Inductive outcome (A : Type) : Type :=
| Returns (a : A)
| Panics.
Arguments Returns {A} a.
Arguments Panics {A}.

Definition M (A : Type) : Type := St -> outcome A * St.

Definition ret {A} (a : A) : M A := fun st => (Returns a, st).

Definition bind {A B} (m : M A) (k : A -> M B) : M B :=
  fun st =>
    match m st with
    | (Returns a, st') => k a st'
    | (Panics, st') => (Panics, st')
    end.

Definition panic {A} : M A := fun st => (Panics, st).

Declare Scope go_scope.
Delimit Scope go_scope with go.
Notation "x <- m ;; k" := (bind m (fun x => k))
  (at level 61, m at next level, right associativity) : go_scope.
Notation "' pat <- m ;; k" := (bind m (fun x => match x with pat => k end))
  (at level 61, pat pattern, m at next level, right associativity) : go_scope.
Notation "m ;; k" := (bind m (fun _ => k))
  (at level 61, right associativity) : go_scope.
Local Open Scope go_scope.

Definition get_self : M File := fun st => (Returns (self st), st).
Definition put_self (f : File) : M unit :=
  fun st => (Returns tt, {| self := f; log := log st |}).
Definition get_log : M trace := fun st => (Returns (log st), st).
Definition emit (e : event) : M unit :=
  fun st => (Returns tt, {| self := self st; log := log st ++ [e] |}).

(** A call to the outside: the oracle answers from the log so far, and the
    call is logged. *)
Definition call {A} (answer : trace -> A) (e : event) : M A :=
  t <- get_log ;; emit e ;; ret (answer t).

Definition run_call {A} (answer : trace -> A) (e : event) (st : St) : A * St :=
  (answer (log st), {| self := self st; log := log st ++ [e] |}).

Definition err_of {A} (r : result A) : option error :=
  match r with
  | Ok _ => None
  | Err e => Some e
  end.

Definition is_nil {A} (o : option A) : bool :=
  match o with
  | None => true
  | Some _ => false
  end.

(** ** Metadata queries *)

(** [getHeadObject] (lines 282-285). *)
Definition getHeadObject : M (result HeadObjectOutput) :=
  f <- get_self ;;
  call (fun t => api_HeadObject (Client (fileSystem f)) t (bucket f) (key f))
       (EHeadObject (bucket f) (key f)).

(** [File.Exists] (lines 69-82).  The assertion [err.(awserr.Error)] has no
    [ok] result, so it panics on an error of another dynamic type. *)
Definition Exists : M (bool * option error) :=
  r <- getHeadObject ;;
  let err := err_of r in
  code <- match err with
          | Some e =>
              match awserr_Code e with
              | Some c => ret c
              | None => panic
              end
          | None => ret ""
          end ;;
  if negb (is_nil err)
     && (String.eqb code s3_ErrCodeNoSuchKey || String.eqb code "NotFound")
  then ret (false, None)
  else match err with
       | Some e => ret (false, Some e)
       | None => ret (true, None)
       end.

(** [File.LastModified] (lines 49-55) and [File.Size] (lines 85-91). *)
Definition LastModified : M (result Z) :=
  head <- getHeadObject ;;
  match head with
  | Err e => ret (Err e)
  | Ok h => ret (Ok (LastModified_ h))
  end.

Definition Size : M (result Z) :=
  head <- getHeadObject ;;
  match head with
  | Err e => ret (Err e)
  | Ok h => ret (Ok (ContentLength h mod 2 ^ 64))
  end.

(** ** The poller *)

(** A value of the interface [vfs.File], as [waitUntilFileExists] uses it:
    whether its dynamic type is [*mocks.ReadWriteFile], what [%s] prints of
    it, and its [Exists] method. *)
Record vfs_File : Type := {
  vf_isMock : bool;
  vf_String : string;
  vf_Exists : M (bool * option error)
}.

Definition timeout_error (file : vfs_File) (retries : Z) : error :=
  ErrorString ("Failed to find file " ++ vf_String file ++ " after "
               ++ sprint_d retries)%string.

Definition poll_error : error := ErrorString "unable to check for file on S3".

(** The iterations left before [retryCount == retries], counting the
    wrap-around of [retryCount++]. *)
Definition wait_measure (retries retryCount : Z) : nat :=
  Z.to_nat ((retries - retryCount) mod 2 ^ 64).

(** The [for] loop of [waitUntilFileExists] (lines 389-406); [retryCount] is
    the loop variable.  The loop ends at the latest when the counter has gone
    round to [retries]. *)
Equations wait_loop (file : vfs_File) (retries retryCount : Z) (st : St) :
  outcome (option error) * St
  by wf (wait_measure retries retryCount) lt :=
wait_loop file retries retryCount st with inspect (int_eqb retryCount retries) := {
  | exist _ true _ => (Returns (Some (timeout_error file retries)), st)
  | exist _ false ne with vf_Exists file st := {
      | (Panics, st1) => (Panics, st1)
      | (Returns (_, Some _), st1) => (Returns (Some poll_error), st1)
      | (Returns (true, None), st1) => (Returns None, st1)
      | (Returns (false, None), st1) =>
          wait_loop file retries (int_add retryCount 1)
                    (snd (run_call (fun _ => tt) (ESleep 1) st1)) } }.
Next Obligation.
  match goal with H : int_eqb _ _ = false |- _ => revert H end.
  unfold int_eqb, int_add, int_wrap, wait_measure. intros H.
  apply Z.eqb_neq in H.
  set (n := 2 ^ 64) in *. assert (Hn : 0 < n) by (subst n; lia).
  assert (Hm : (retries - retryCount) mod n <> 0).
  { intros E. apply H. f_equal.
    replace (retries + 2 ^ 63)
      with ((retryCount + 2 ^ 63) + ((retries - retryCount) / n) * n).
    - rewrite Z.mod_add by lia. reflexivity.
    - pose proof (Z.div_mod (retries - retryCount) n). lia. }
  assert (E : (retries - ((retryCount + 1 + 2 ^ 63) mod n - 2 ^ 63)) mod n
              = (retries - retryCount) mod n - 1).
  { replace (retries - ((retryCount + 1 + 2 ^ 63) mod n - 2 ^ 63))
      with ((retries - retryCount - 1) + ((retryCount + 1 + 2 ^ 63) / n) * n).
    2:{ pose proof (Z.div_mod (retryCount + 1 + 2 ^ 63) n); lia. }
    rewrite Z.mod_add by lia.
    pose proof (Z.mod_pos_bound (retries - retryCount) n).
    pose proof (Z.div_mod (retries - retryCount) n).
    symmetry. apply Z.mod_unique with (q := (retries - retryCount) / n); lia. }
  rewrite E.
  pose proof (Z.mod_pos_bound (retries - retryCount) n). lia.
Qed.

(** [waitUntilFileExists] (lines 378-409). *)
Definition waitUntilFileExists (file : vfs_File) (retries : Z) : M (option error) :=
  if vf_isMock file then ret None
  else if int_eqb retries (-1) then ret None
  else wait_loop file retries 0.

(** ** Error aggregation *)

(** Modelled from the spec: [vfs.MultiErr] with [NewMutliErr], [Append],
    [DeferFunc] and [OrNil] is declared in the parent package [vfs], outside
    [s3/file.go].  The spec has the failures of Close aggregated and Close
    return the first aggregated error, or nothing on full success; the model
    is the list of the errors in the order they were appended.  What [Append]
    returns is not said; Close overwrites it before it returns. *)
Definition MultiErr : Type := list error.

Definition NewMutliErr : MultiErr := [].

Definition Append (me : MultiErr) (e : error) : MultiErr * option error :=
  (me ++ [e], Some e).

Definition OrNil (me : MultiErr) : option error := hd_error me.

Definition DeferFunc (me : MultiErr) (f : St -> option error * St) (st : St) :
  MultiErr * St :=
  match f st with
  | (Some e, st') => (fst (Append me e), st')
  | (None, st') => (me, st')
  end.

(** Modelled from the spec: [vfs.CleanPrefix] is declared in the parent
    package [vfs], outside [s3/file.go].  The spec has the key normalized to
    strip any leading path separators. *)
Fixpoint CleanPrefix (prefix : string) : string :=
  match prefix with
  | String "/"%char rest => CleanPrefix rest
  | _ => prefix
  end.

(** ** Construction *)

(** [newFile] (lines 31-44).  A [nil] file system pointer is [None]. *)
Definition newFile (fs : option FileSystem) (bucket key : string) : result File :=
  match fs with
  | None => Err (ErrorString "non-nil s3.fileSystem pointer is required")
  | Some fs =>
      if String.eqb bucket "" || String.eqb key ""
      then Err (ErrorString "non-empty strings for bucket and key are required")
      else
        let key := CleanPrefix key in
        Ok {| fileSystem := fs; bucket := bucket; key := key;
              tempFile := None; writeBuffer := None |}
  end.

(** [File.Path] (lines 63-65). *)
Definition Path (f : File) : string := ("/" ++ key f)%string.

(** ** The local mirror *)

(** [io.EOF] and [os.ErrInvalid]. *)
Definition io_EOF : error := ErrorString "EOF".
Definition os_ErrInvalid : error := ErrorString "invalid argument".

(** [Read] of the temporary file into a slice of length [n]: the bytes from
    the cursor on, at most [n] of them, and the cursor after them; [io.EOF]
    when a non-empty slice gets nothing.  The temporary file is its content
    and its cursor: an open file, read without error of the system. *)
Definition OsFile_Read (tf : OsFile) (n : nat) :
  OsFile * (list Byte.byte * Z * option error) :=
  let got := firstn n (skipn (Z.to_nat (tf_pos tf)) (tf_data tf)) in
  let tf' := {| tf_name := tf_name tf; tf_data := tf_data tf;
                tf_pos := tf_pos tf + Z.of_nat (length got) |} in
  match n, got with
  | S _, [] => (tf, ([], 0, Some io_EOF))
  | _, _ => (tf', (got, Z.of_nat (length got), None))
  end.

(** [Seek] of the temporary file: [whence] 0, 1, 2 for start, cursor, end.
    As for [Read] the file is open; the offsets are not bounded. *)
Definition OsFile_Seek (tf : OsFile) (offset whence : Z) :
  OsFile * (Z * option error) :=
  let base :=
    if whence =? 0 then Some 0
    else if whence =? 1 then Some (tf_pos tf)
    else if whence =? 2 then Some (Z.of_nat (length (tf_data tf)))
    else None in
  match base with
  | Some b =>
      if b + offset <? 0
      then (tf, (0, Some (PathError false "seek: invalid argument")))
      else ({| tf_name := tf_name tf; tf_data := tf_data tf; tf_pos := b + offset |},
            (b + offset, None))
  | None => (tf, (0, Some (PathError false "seek: invalid argument")))
  end.

Section Methods.

Variable os : OS.

(** The constant [Scheme] of the package, declared outside [file.go]. *)
Variable Scheme : string.

(** [File.Name] (lines 58-60). *)
Definition Name (f : File) : string := path_Base os (key f).

(** [*Location] of this package, declared outside [file.go]: the three
    fields [File.Location] fills. *)
Record s3_Location : Type := {
  l_fileSystem : FileSystem;
  l_prefix : string;
  l_bucket : string
}.

(** [File.Location] (lines 95-101). *)
Definition Location (f : File) : s3_Location :=
  {| l_fileSystem := fileSystem f; l_prefix := path_Dir os (key f);
     l_bucket := bucket f |}.

(** [getObject] (lines 364-371): the body of the object, whole. *)
Definition getObject : M (result (list Byte.byte)) :=
  f <- get_self ;;
  call (fun t => api_GetObject (Client (fileSystem f)) t (bucket f) (key f))
       (EGetObject (bucket f) (key f)).

(** [copyToLocalTempReader] (lines 316-338). *)
Definition copyToLocalTempReader : M (result OsFile) :=
  f <- get_self ;;
  t <- get_log ;;
  let pattern := (Name f ++ "." ++ sprint_d (os_UnixNano os t))%string in
  r <- call (fun t => os_TempFile os t pattern) (ETempFile pattern) ;;
  match r with
  | Err e => ret (Err e)
  | Ok name =>
      r <- getObject ;;
      match r with
      | Err e => ret (Err e)
      | Ok body =>
          c <- call (fun t => os_IoCopy os t name body) (EIoCopy name body) ;;
          match c with
          | Some e => ret (Err e)
          | None =>
              (* the cursor is now after the body *)
              s <- call (fun t => os_SeekStart os t name) (ESeekStart name) ;;
              match s with
              | Some e => ret (Err e)
              | None => ret (Ok {| tf_name := name; tf_data := body; tf_pos := 0 |})
              end
          end
      end
  end.

(** [checkTempFile] (lines 304-314). *)
Definition checkTempFile : M (option error) :=
  f <- get_self ;;
  match tempFile f with
  | None =>
      r <- copyToLocalTempReader ;;
      match r with
      | Err e => ret (Some e)
      | Ok localTempFile =>
          put_self (set_tempFile f (Some localTempFile)) ;;
          ret None
      end
  | Some _ => ret None
  end.

(** [File.Read] (lines 233-238), on a slice of length [n]: the bytes put in
    the slice, their number and the error.  A method of a nil temporary file
    answers [os.ErrInvalid]. *)
Definition Read (n : nat) : M (list Byte.byte * Z * option error) :=
  err <- checkTempFile ;;
  match err with
  | Some e => ret ([], 0, Some e)
  | None =>
      f <- get_self ;;
      match tempFile f with
      | Some tf =>
          let (tf', r) := OsFile_Read tf n in
          put_self (set_tempFile f (Some tf')) ;;
          ret r
      | None => ret ([], 0, Some os_ErrInvalid)
      end
  end.

(** [File.Seek] (lines 242-247). *)
Definition Seek (offset whence : Z) : M (Z * option error) :=
  err <- checkTempFile ;;
  match err with
  | Some e => ret (0, Some e)
  | None =>
      f <- get_self ;;
      match tempFile f with
      | Some tf =>
          let (tf', r) := OsFile_Seek tf offset whence in
          put_self (set_tempFile f (Some tf')) ;;
          ret r
      | None => ret (0, Some os_ErrInvalid)
      end
  end.

(** ** The write buffer *)

(** [File.Write] (lines 253-267).  [bytes.Buffer.Write] appends and returns
    the length of its argument and a nil error. *)
Definition Write (data : list Byte.byte) : M (Z * option error) :=
  f <- get_self ;;
  (if is_nil (writeBuffer f)
   then put_self (set_writeBuffer f (Some []))
   else ret tt) ;;
  f <- get_self ;;
  match writeBuffer f with
  | Some b =>
      put_self (set_writeBuffer f (Some (b ++ data))) ;;
      ret (Z.of_nat (length data), None)
  | None => panic
  end.

(** [uploadInput] (lines 351-358): the directive of server-side encryption. *)
Definition sseType : string := "AES256".

(** ** Close *)

(** [vfs.GetFileURI], declared in the parent package: what [%s] prints of a
    File (through [String] and [URI], lines 270-277). *)
Variable GetFileURI : File -> string.

(** The File [f] as a value of the interface [vfs.File]. *)
Definition as_vfs_File (f : File) : vfs_File :=
  {| vf_isMock := false; vf_String := GetFileURI f; vf_Exists := Exists |}.

(** The method value [f.tempFile.Close], bound when the [defer] statement is
    executed (line 203). *)
Definition tempFile_Close (tf : OsFile) (st : St) : option error * St :=
  run_call (fun t => os_FileClose os t (tf_name tf)) (EFileClose (tf_name tf)) st.

(** Lines 223-228 of Close: the buffer reference is cleared and the poller is
    called with five retries.  The result is the value of the [return]
    statement and the errors aggregated so far. *)
Definition Close_wait (errs : MultiErr) (st : St) :
  outcome (option error) * MultiErr * St :=
  let st1 := {| self := set_writeBuffer (self st) None; log := log st |} in
  match waitUntilFileExists (as_vfs_File (self st1)) 5 st1 with
  | (Returns (Some err), st2) => (Returns (Some err), errs, st2)
  | (Returns None, st2) => (Returns None, errs, st2)
  | (Panics, st2) => (Panics, errs, st2)
  end.

(** Lines 213-221 of Close, and what follows.  The body of the upload is the
    buffer itself: after a failed upload the buffer holds what the uploader
    has not read. *)
Definition Close_commit (errs : MultiErr) (st : St) :
  outcome (option error) * MultiErr * St :=
  let f := self st in
  match writeBuffer f with
  | Some body =>
      let (r, st1) :=
        run_call (fun t => api_Upload (Client (fileSystem f)) t
                                      (bucket f) (key f) sseType body)
                 (EUpload (bucket f) (key f) sseType body) st in
      match r with
      | UploadErr err consumed =>
          let (errs', rerr) := Append errs err in
          (Returns rerr, errs',
           {| self := set_writeBuffer (self st1) (Some (skipn consumed body));
              log := log st1 |})
      | UploadOk => Close_wait errs st1
      end
  | None => Close_wait errs st
  end.

(** The statements of Close (lines 202-228) without the deferred calls: the
    value of the [return] statement reached, the errors aggregated, and the
    temporary file whose [Close] was deferred, if any. *)
Definition Close_body (errs : MultiErr) (st : St) :
  outcome (option error) * MultiErr * option OsFile * St :=
  match tempFile (self st) with
  | Some tf =>
      let (err, st1) :=
        run_call (fun t => os_Remove os t (tf_name tf)) (ERemove (tf_name tf)) st in
      let continue :=
        let '(r, errs', st2) :=
          Close_commit errs
            {| self := set_tempFile (self st1) None; log := log st1 |} in
        (r, errs', Some tf, st2) in
      match err with
      | Some e =>
          if negb (os_IsNotExist e)
          then let (errs', rerr) := Append errs e in
               (Returns rerr, errs', Some tf, st1)
          else continue
      | None => continue
      end
  | None =>
      let '(r, errs', st1) := Close_commit errs st in
      (r, errs', None, st1)
  end.

(** The deferred call of line 203, [errs.DeferFunc(f.tempFile.Close)], if the
    [defer] statement was executed. *)
Definition run_deferred (deferred : option OsFile) (errs : MultiErr) (st : St) :
  MultiErr * St :=
  match deferred with
  | Some tf => DeferFunc errs (tempFile_Close tf) st
  | None => (errs, st)
  end.

(** [File.Close] (lines 197-229).  The deferred calls run last in, first out,
    also when the body panics: first the one of line 203, then the closure of
    line 200, which sets the named result to [errs.OrNil()] whatever the
    [return] statement had put there. *)
Definition Close : M (option error) :=
  fun st =>
    let errs := NewMutliErr in
    let '(r, errs1, deferred, st1) := Close_body errs st in
    let (errs2, st2) := run_deferred deferred errs1 st1 in
    match r with
    | Returns _ => (Returns (OrNil errs2), st2)
    | Panics => (Panics, st2)
    end.

(** [File.Delete] (lines 182-193). *)
Definition Delete : M (option error) :=
  f <- get_self ;;
  put_self (set_writeBuffer f None) ;;
  err <- Close ;;
  match err with
  | Some e => ret (Some e)
  | None =>
      f <- get_self ;;
      call (fun t => api_DeleteObject (Client (fileSystem f)) t (bucket f) (key f))
           (EDeleteObject (bucket f) (key f))
  end.

(** ** Copy and move *)

(** A file of another backend, as a value of [vfs.File]: its [Close] is a
    call to the outside. *)
Record OtherFile : Type := {
  of_name : string;
  of_Close : trace -> option error
}.

(** A value of [vfs.File] by its dynamic type: [*File] of this package, or
    not. *)
Inductive vfs_target : Type :=
| TargetS3 (tf : File)
| TargetOther (o : OtherFile).

(** [vfs.Location], as the File reads it: the scheme of its file system, its
    volume, its path, and the [NewFile] of its file system. *)
Record vfs_Location : Type := {
  loc_Scheme : string;
  loc_Volume : string;
  loc_Path : string;
  loc_NewFile : string -> string -> result vfs_target
}.

(** [vfs.TouchCopy(targetFile, f)], declared in the parent package, and
    [io.Copy(newFile, f)]: the stream copies from the File into a target.
    They read the File through its methods and may do any call. *)
Variable TouchCopy : vfs_target -> M (option error).
Variable io_Copy : vfs_target -> M (Z * option error).

(** [copyWithinS3ToFile] (lines 287-292). *)
Definition copyWithinS3ToFile (targetFile : File) : M (option error) :=
  f <- get_self ;;
  let copySource := path_Join os (bucket f) (key f) in
  call (fun t => api_CopyObject (Client (fileSystem f)) t
                                (bucket targetFile) (key targetFile) copySource)
       (ECopyObject (bucket targetFile) (key targetFile) copySource).

(** [copyWithinS3ToLocation] (lines 294-302). *)
Definition copyWithinS3ToLocation (location : vfs_Location) :
  M (option vfs_target * option error) :=
  f <- get_self ;;
  let k := path_Join os (loc_Path location) (Name f) in
  let copySource := path_Join os (bucket f) (key f) in
  err <- call (fun t => api_CopyObject (Client (fileSystem f)) t
                                       (loc_Volume location) k copySource)
              (ECopyObject (loc_Volume location) k copySource) ;;
  match err with
  | Some e => ret (None, Some e)
  | None =>
      match loc_NewFile location (loc_Volume location) k with
      | Ok nf => ret (Some nf, None)
      | Err e => ret (None, Some e)
      end
  end.

(** [Close] through the interface: of a File of this package it is [Close]
    above, run on that File with the same log; the handle designates the
    File as Close left it. *)
Definition target_Close (target : vfs_target) : M (vfs_target * option error) :=
  match target with
  | TargetOther o =>
      cerr <- call (of_Close o) (EOtherClose (of_name o)) ;;
      ret (target, cerr)
  | TargetS3 tf =>
      fun st =>
        match Close {| self := tf; log := log st |} with
        | (Returns cerr, st') =>
            (Returns (TargetS3 (self st'), cerr), {| self := self st; log := log st' |})
        | (Panics, st') => (Panics, {| self := self st; log := log st' |})
        end
  end.

(** [File.CopyToFile] (lines 107-124). *)
Definition CopyToFile (targetFile : vfs_target) : M (option error) :=
  match targetFile with
  | TargetS3 tf => copyWithinS3ToFile tf
  | TargetOther _ =>
      err <- TouchCopy targetFile ;;
      match err with
      | Some e => ret (Some e)
      | None =>
          '(_, cerr) <- target_Close targetFile ;;
          match cerr with
          | Some e => ret (Some e)
          | None =>
              cerr <- Close ;;
              match cerr with
              | Some e => ret (Some e)
              | None => ret None
              end
          end
      end
  end.

(** [File.CopyToLocation] (lines 153-176). *)
Definition CopyToLocation (location : vfs_Location) :
  M (option vfs_target * option error) :=
  if String.eqb (loc_Scheme location) Scheme
  then copyWithinS3ToLocation location
  else
    f <- get_self ;;
    match loc_NewFile location (loc_Volume location)
                      (path_Join os (loc_Path location) (Name f)) with
    | Err e => ret (None, Some e)
    | Ok newFile =>
        '(_, err) <- io_Copy newFile ;;
        match err with
        | Some e => ret (None, Some e)
        | None =>
            '(newFile, cerr) <- target_Close newFile ;;
            match cerr with
            | Some e => ret (None, Some e)
            | None =>
                cerr <- Close ;;
                match cerr with
                | Some e => ret (None, Some e)
                | None => ret (Some newFile, None)
                end
            end
        end
    end.

(** [File.MoveToFile] (lines 129-135). *)
Definition MoveToFile (targetFile : vfs_target) : M (option error) :=
  err <- CopyToFile targetFile ;;
  match err with
  | Some e => ret (Some e)
  | None => Delete
  end.

(** [File.MoveToLocation] (lines 141-148). *)
Definition MoveToLocation (location : vfs_Location) :
  M (option vfs_target * option error) :=
  '(newFile, err) <- CopyToLocation location ;;
  match err with
  | Some e => ret (None, Some e)
  | None =>
      delErr <- Delete ;;
      ret (newFile, delErr)
  end.

End Methods.

(** ** Scripted worlds, for the concrete scenarios *)

Definition is_head (e : event) : bool :=
  match e with
  | EHeadObject _ _ => true
  | _ => false
  end.

Definition is_get (e : event) : bool :=
  match e with
  | EGetObject _ _ => true
  | _ => false
  end.

Definition is_upload (e : event) : bool :=
  match e with
  | EUpload _ _ _ _ => true
  | _ => false
  end.

Definition is_delete (e : event) : bool :=
  match e with
  | EDeleteObject _ _ => true
  | _ => false
  end.

Definition is_remote (e : event) : bool :=
  match e with
  | EHeadObject _ _ | EGetObject _ _ | EUpload _ _ _ _
  | ECopyObject _ _ _ | EDeleteObject _ _ => true
  | _ => false
  end.

Definition count (p : event -> bool) (t : trace) : nat := length (filter p t).

Definition not_found : error := AwsError "NotFound" "Not Found".
Definition no_such_key : error := AwsError s3_ErrCodeNoSuchKey "The specified key does not exist.".
Definition slow_down : error := AwsError "SlowDown" "Please reduce your request rate.".
Definition broken_pipe : error := ErrorString "write: broken pipe".
Definition access_denied : error := PathError false "remove: permission denied".

Definition head_ok : result HeadObjectOutput :=
  Ok {| LastModified_ := 0; ContentLength := 0 |}.

(** A client that answers the n-th HeadObject request with the n-th element
    of [heads] (and [last] from then on), and every other request always the
    same way. *)
Definition scripted_client (heads : list (result HeadObjectOutput))
    (last : result HeadObjectOutput) (get : result (list Byte.byte))
    (upload : upload_result) (copy del : option error) : S3API :=
  {| api_HeadObject := fun t _ _ => nth (count is_head t) heads last;
     api_GetObject := fun _ _ _ => get;
     api_CopyObject := fun _ _ _ _ => copy;
     api_DeleteObject := fun _ _ _ => del;
     api_Upload := fun _ _ _ _ _ => upload |}.

(** A last path element, for the scripted worlds. *)
Fixpoint last_segment (acc s : string) : string :=
  match s with
  | EmptyString => acc
  | String "/"%char rest => last_segment "" rest
  | String c rest => last_segment (acc ++ String c "")%string rest
  end.

(** An operating system where the removal and the close of a temporary file
    answer as given and everything else succeeds. *)
Definition scripted_os (remove close : option error) : OS :=
  {| os_TempFile := fun _ pattern => Ok ("/tmp/" ++ pattern)%string;
     os_IoCopy := fun _ _ _ => None;
     os_SeekStart := fun _ _ => None;
     os_Remove := fun _ _ => remove;
     os_FileClose := fun _ _ => close;
     os_UnixNano := fun t => Z.of_nat (length t);
     path_Base := fun s => last_segment "" s;
     path_Dir := fun _ => ".";
     path_Join := fun a b => (a ++ "/" ++ b)%string |}.

Definition uri (f : File) : string := ("s3://" ++ bucket f ++ "/" ++ key f)%string.

Definition file_on (c : S3API) (tmp : option OsFile)
    (buf : option (list Byte.byte)) : File :=
  {| fileSystem := {| Client := c |}; bucket := "docs"; key := "a/b/report.txt";
     tempFile := tmp; writeBuffer := buf |}.

Definition start (f : File) : St := {| self := f; log := [] |}.

Definition hello : list Byte.byte := [Byte.x68; Byte.x65; Byte.x6c; Byte.x6c; Byte.x6f].

Definition mirror : OsFile :=
  {| tf_name := "/tmp/report.txt.1"; tf_data := hello; tf_pos := 0 |}.

(** ** The answers a state holds in store *)

(** What the client answers to the metadata query of the File, asked now. *)
Definition head_answer (st : St) : result HeadObjectOutput :=
  api_HeadObject (Client (fileSystem (self st))) (log st)
                 (bucket (self st)) (key (self st)).

(** The state once the metadata query is logged. *)
Definition head_logged (st : St) : St :=
  {| self := self st;
     log := log st ++ [EHeadObject (bucket (self st)) (key (self st))] |}.

(** The errors Exists takes for an absent object: an AWS error whose code is
    [NoSuchKey] or [NotFound] (line 75). *)
Definition not_found_class (e : error) : bool :=
  match awserr_Code e with
  | Some code => String.eqb code s3_ErrCodeNoSuchKey || String.eqb code "NotFound"
  | None => false
  end.

(** A computation that leaves the receiver as it is and only adds to the
    log. *)
Definition query {A} (m : M A) : Prop :=
  forall st, self (snd (m st)) = self st
             /\ exists new, log (snd (m st)) = log st ++ new.

(** The identity of a File: its file system, its bucket and its key. *)
Definition same_identity (f g : File) : Prop :=
  fileSystem f = fileSystem g /\ bucket f = bucket g /\ key f = key g.

Definition keeps_identity {A} (m : M A) : Prop :=
  forall st, same_identity (self st) (self (snd (m st))).

(** Read and Seek calls, and a session of them run in order, whatever each
    returns. *)
Inductive access : Type :=
| ARead (n : nat)
| ASeek (offset whence : Z).

Definition run_access (os : OS) (a : access) (st : St) : St :=
  match a with
  | ARead n => snd (Read os n st)
  | ASeek offset whence => snd (Seek os offset whence st)
  end.

Definition run_accesses (os : OS) (l : list access) (st : St) : St :=
  fold_left (fun s a => run_access os a s) l st.

(** A session of Write calls. *)
Definition run_writes (l : list (list Byte.byte)) (st : St) : St :=
  fold_left (fun s d => snd (Write d s)) l st.

(** Whether the removal of the temporary file, asked now, fails with an
    error that is not a "does not exist" (lines 205-206). *)
Definition remove_fails (os : OS) (st : St) : bool :=
  match tempFile (self st) with
  | Some tf =>
      match os_Remove os (log st) (tf_name tf) with
      | Some e => negb (os_IsNotExist e)
      | None => false
      end
  | None => false
  end.

(** The state when Close has done with the mirror: the removal is logged and
    the reference cleared. *)
Definition mirror_released (st : St) : St :=
  match tempFile (self st) with
  | Some tf => {| self := set_tempFile (self st) None;
                  log := log st ++ [ERemove (tf_name tf)] |}
  | None => st
  end.

(** What the uploader answers to the commit of [body], asked now. *)
Definition upload_answer (st : St) (body : list Byte.byte) : upload_result :=
  api_Upload (Client (fileSystem (self st))) (log st)
             (bucket (self st)) (key (self st)) sseType body.

Definition upload_event (st : St) (body : list Byte.byte) : event :=
  EUpload (bucket (self st)) (key (self st)) sseType body.

(** A client whose metadata query always answers [h]; every other request
    succeeds. *)
Definition client_head (h : result HeadObjectOutput) : S3API :=
  scripted_client [] h (Ok hello) UploadOk None None.

(** The object is absent at the first two metadata queries and visible from
    the third on. *)
Definition client_visible_at_third : S3API :=
  scripted_client [Err not_found; Err not_found] head_ok (Ok hello) UploadOk None None.

(** The object is absent at the first three metadata queries. *)
Definition client_absent_thrice : S3API :=
  scripted_client [Err not_found; Err not_found; Err not_found] head_ok
                  (Ok hello) UploadOk None None.

Definition report (c : S3API) : File := file_on c None None.

Definition head_event : event := EHeadObject "docs" "a/b/report.txt".

(** The content of the write buffer; a nil buffer has none. *)
Definition buffered (f : File) : list Byte.byte :=
  match writeBuffer f with
  | Some b => b
  | None => []
  end.

(** The name pattern of the temporary file, made now (line 317). *)
Definition temp_pattern (os : OS) (st : St) : string :=
  (Name os (self st) ++ "." ++ sprint_d (os_UnixNano os (log st)))%string.

(** What the client answers to the retrieval of the object, asked once the
    temporary file is created. *)
Definition get_answer (os : OS) (st : St) : result (list Byte.byte) :=
  api_GetObject (Client (fileSystem (self st)))
                (log st ++ [ETempFile (temp_pattern os st)])
                (bucket (self st)) (key (self st)).

(** A client whose upload answers [u]; the object is visible and every other
    request succeeds. *)
Definition client_upload (u : upload_result) : S3API :=
  scripted_client [] head_ok (Ok hello) u None None.

(** A client whose native copy answers [copy] and whose delete answers
    [del]. *)
Definition client_copy (copy del : option error) : S3API :=
  scripted_client [] head_ok (Ok hello) UploadOk copy del.

Definition os_ok : OS := scripted_os None None.
Definition os_denied : OS := scripted_os (Some access_denied) None.

Definition upload_hello : event := EUpload "docs" "a/b/report.txt" "AES256" hello.

(** A stream copy that does nothing and succeeds, and the scheme of the
    package, for the scripted worlds. *)
Definition copy_nothing : vfs_target -> M (option error) := fun _ => ret None.
Definition io_copy_nothing : vfs_target -> M (Z * option error) :=
  fun _ => ret (0, None).
Definition s3_scheme : string := "s3".

(** The state once the native copy of the File to bucket [b] and key [k] is
    logged, and what the client answers to it, asked now. *)
Definition copy_event (os : OS) (st : St) (b k : string) : event :=
  ECopyObject b k (path_Join os (bucket (self st)) (key (self st))).

Definition copy_answer (os : OS) (st : St) (b k : string) : option error :=
  api_CopyObject (Client (fileSystem (self st))) (log st) b k
                 (path_Join os (bucket (self st)) (key (self st))).

(** A location of this package, in bucket "archive". *)
Definition archive (c : S3API) : vfs_Location :=
  {| loc_Scheme := s3_scheme; loc_Volume := "archive"; loc_Path := "2024";
     loc_NewFile := fun volume name =>
       match newFile (Some {| Client := c |}) volume name with
       | Ok f => Ok (TargetS3 f)
       | Err e => Err e
       end |}.

(** The states of the concrete scenarios, each with an empty log. *)

(** An absent object; the File has neither mirror nor buffer. *)
Definition absent_unwritten : St := start (report (client_head (Err not_found))).

(** The metadata query fails with an error that is not an AWS error. *)
Definition broken_head : St := start (report (client_head (Err broken_pipe))).

(** The metadata query fails with an AWS error that is not a "not found". *)
Definition throttled_head : St := start (report (client_head (Err slow_down))).

(** The object becomes visible at the third metadata query. *)
Definition visible_at_third : St := start (report client_visible_at_third).

(** A buffer whose upload fails after all of it, or two bytes of it, have
    been read. *)
Definition failing_commit : St :=
  start (file_on (client_upload (UploadErr slow_down 5)) None (Some hello)).

Definition failing_commit_partial : St :=
  start (file_on (client_upload (UploadErr slow_down 2)) None (Some hello)).

(** A mirror and a buffer, on a client where everything succeeds. *)
Definition read_and_written : St :=
  start (file_on (client_upload UploadOk) (Some mirror) (Some hello)).

(** A fresh File on a visible object. *)
Definition fresh : St := start (report (client_upload UploadOk)).

(** A File whose native copy fails. *)
Definition failing_copy : St := start (report (client_copy (Some slow_down) None)).

(** A File whose native copy succeeds and whose delete fails. *)
Definition failing_delete : St := start (report (client_copy None (Some slow_down))).

(** The object is absent at the first three metadata queries. *)
Definition absent_thrice : St := start (report client_absent_thrice).

(** ** The calls of a computation, by kind *)

(** The events of a poll: metadata queries and sleeps. *)
Definition is_poll (e : event) : bool :=
  match e with
  | EHeadObject _ _ | ESleep _ => true
  | _ => false
  end.

Definition is_sleep (e : event) : bool :=
  match e with
  | ESleep _ => true
  | _ => false
  end.

(** The events on a local temporary file. *)
Definition is_local (e : event) : bool :=
  match e with
  | ETempFile _ | EIoCopy _ _ | ESeekStart _ | ERemove _ | EFileClose _ => true
  | _ => false
  end.

(** A computation that leaves the receiver as it is and adds to the log
    only the events of a poll. *)
Definition polls_only {A} (m : M A) : Prop :=
  forall st, self (snd (m st)) = self st
             /\ exists new, log (snd (m st)) = log st ++ new
                            /\ forallb is_poll new = true.

(** The events Close has for the mirror of the state it starts from: the
    removal of the temporary file, first, and its close, last. *)
Definition removal_event (st : St) : trace :=
  match tempFile (self st) with
  | Some tf => [ERemove (tf_name tf)]
  | None => []
  end.

Definition close_event (st : St) : trace :=
  match tempFile (self st) with
  | Some tf => [EFileClose (tf_name tf)]
  | None => []
  end.

(** The upload Close makes from the state it starts from: of the buffer, if
    there is one and the removal of the temporary file does not fail. *)
Definition commit_event (os : OS) (st : St) : trace :=
  if remove_fails os st then []
  else match writeBuffer (self st) with
       | Some body => [upload_event st body]
       | None => []
       end.

(** ** A client that keeps what it was sent *)

(** The body of the last upload to bucket [b] and key [k] in a log. *)
Definition last_upload (b k : string) (t : trace) : option (list Byte.byte) :=
  fold_left (fun acc e =>
               match e with
               | EUpload b' k' _ body =>
                   if String.eqb b b' && String.eqb k k' then Some body else acc
               | _ => acc
               end) t None.

(** The requests that change what the store holds. *)
Definition is_mutation (e : event) : bool :=
  match e with
  | EUpload _ _ _ _ | ECopyObject _ _ _ | EDeleteObject _ _ => true
  | _ => false
  end.

(** A client reads back what was uploaded: once an upload to an object has
    succeeded, and as long as no other upload, copy or delete is requested,
    the retrieval of the object answers the uploaded body. *)
Definition reads_back (c : S3API) : Prop :=
  forall t b k sse body rest,
    api_Upload c t b k sse body = UploadOk ->
    count is_mutation rest = 0%nat ->
    api_GetObject c (t ++ EUpload b k sse body :: rest) b k = Ok body.

(** A client that stores: uploads succeed, and an object has the body of the
    last upload to it, or is not there. *)
Definition store_client : S3API :=
  {| api_HeadObject := fun t b k =>
       match last_upload b k t with
       | Some body => Ok {| LastModified_ := 0;
                            ContentLength := Z.of_nat (length body) |}
       | None => Err not_found
       end;
     api_GetObject := fun t b k =>
       match last_upload b k t with
       | Some body => Ok body
       | None => Err no_such_key
       end;
     api_CopyObject := fun _ _ _ _ => None;
     api_DeleteObject := fun _ _ _ => None;
     api_Upload := fun _ _ _ _ _ => UploadOk |}.

Definition stored : St := start (report store_client).

Definition world : list Byte.byte :=
  [Byte.x20; Byte.x77; Byte.x6f; Byte.x72; Byte.x6c; Byte.x64].

(** The state a handle [f] finds when another computation has left [st]:
    the same log. *)
Definition handle (f : File) (st : St) : St := {| self := f; log := log st |}.

(** A stream copy that fails, and a file of another backend whose close
    succeeds. *)
Definition copy_fails : vfs_target -> M (option error) :=
  fun _ => ret (Some broken_pipe).

Definition elsewhere : OtherFile :=
  {| of_name := "/mnt/report.txt"; of_Close := fun _ => None |}.

(** The errors the client answers to the metadata query of the File are AWS
    errors, whenever it is asked: the errors on which the type assertion of
    Exists holds. *)
Definition head_errors_are_aws (st : St) : Prop :=
  forall t e,
    api_HeadObject (Client (fileSystem (self st))) t
                   (bucket (self st)) (key (self st)) = Err e ->
    awserr_Code e <> None.

(** ** A materialization that succeeds *)

(** The calls of a materialization, when each succeeds: the creation of the
    temporary file, the retrieval of the object, the copy of its body into
    the file, the return of the cursor to the start. *)
Definition materialization_events (os : OS) (st : St) (name : string)
    (body : list Byte.byte) : trace :=
  [ETempFile (temp_pattern os st);
   EGetObject (bucket (self st)) (key (self st));
   EIoCopy name body;
   ESeekStart name].

(** The outside answers to each of them with success: the temporary file
    gets [name], the object has [body]. *)
Definition materialization_succeeds (os : OS) (st : St) (name : string)
    (body : list Byte.byte) : Prop :=
  os_TempFile os (log st) (temp_pattern os st) = Ok name
  /\ get_answer os st = Ok body
  /\ os_IoCopy os (log st ++ firstn 2 (materialization_events os st name body))
               name body = None
  /\ os_SeekStart os (log st ++ firstn 3 (materialization_events os st name body))
                  name = None.

(** The mirror a materialization sets, and the state it leaves. *)
Definition fresh_mirror (name : string) (body : list Byte.byte) : OsFile :=
  {| tf_name := name; tf_data := body; tf_pos := 0 |}.

Definition materialized (os : OS) (st : St) (name : string)
    (body : list Byte.byte) : St :=
  {| self := set_tempFile (self st) (Some (fresh_mirror name body));
     log := log st ++ materialization_events os st name body |}.

(** One File, read, closed and read again. *)
Definition read_once : St := snd (Read os_ok 3 fresh).
Definition read_closed : St := snd (Close os_ok uri read_once).
Definition read_again : St := snd (Read os_ok 3 read_closed).

(** * Properties *)

Unset Implicit Arguments.

(** ** Exists *)

Lemma Exists_run (st : St) :
  Exists st =
  (match head_answer st with
   | Ok _ => Returns (true, None)
   | Err e =>
       match awserr_Code e with
       | None => Panics
       | Some _ => if not_found_class e then Returns (false, None)
                   else Returns (false, Some e)
       end
   end, head_logged st).
Proof.
  unfold Exists, getHeadObject, call, bind, get_self, get_log, emit, ret, panic,
    head_answer, head_logged, not_found_class.
  cbn [self log fst snd].
  destruct (api_HeadObject _ _ _ _) as [h | e]; cbn; [reflexivity |].
  destruct (awserr_Code e) as [code |]; cbn; [| reflexivity].
  destruct (String.eqb code s3_ErrCodeNoSuchKey || String.eqb code "NotFound");
    reflexivity.
Qed.

Lemma Exists_query : query Exists.
Proof.
  intros st. rewrite Exists_run. cbn. split; [reflexivity | eauto].
Qed.

(** ** The poller *)

Lemma wait_loop_step (file : vfs_File) (retries retryCount : Z) (st : St) :
  wait_loop file retries retryCount st =
  if int_eqb retryCount retries
  then (Returns (Some (timeout_error file retries)), st)
  else match vf_Exists file st with
       | (Panics, st1) => (Panics, st1)
       | (Returns (_, Some _), st1) => (Returns (Some poll_error), st1)
       | (Returns (true, None), st1) => (Returns None, st1)
       | (Returns (false, None), st1) =>
           wait_loop file retries (int_add retryCount 1)
                     (snd (run_call (fun _ => tt) (ESleep 1) st1))
       end.
Proof.
  funelim (wait_loop file retries retryCount st);
    try rewrite <- Heqcall;
    repeat match goal with
           | E : int_eqb _ _ = _ |- context [int_eqb _ _] => rewrite E
           | E : vf_Exists _ _ = _ |- context [vf_Exists _ _] => rewrite E
           | b : bool |- context [if ?b then _ else _] => destruct b
           end; reflexivity.
Qed.

Lemma wait_loop_query (file : vfs_File) (retries retryCount : Z) :
  query (vf_Exists file) -> query (wait_loop file retries retryCount).
Proof.
  intros Hq st.
  funelim (wait_loop file retries retryCount st); try rewrite <- Heqcall.
  - cbn. split; [reflexivity | exists []; now rewrite app_nil_r].
  - destruct (Hq st) as [Hs Hl]. rewrite Heq in Hs, Hl. exact (conj Hs Hl).
  - destruct (Hq st) as [Hs Hl]. rewrite Heq in Hs, Hl. exact (conj Hs Hl).
  - destruct (Hq st) as [Hs [new Hl]]. rewrite Heq in Hs, Hl. cbn in Hs, Hl.
    match goal with IH : query _ -> _ |- _ => destruct (IH Hq) as [Is [new' Il]] end.
    cbn in Is, Il |- *. split; [congruence |].
    exists (new ++ ESleep 1 :: new'). rewrite Il, Hl, <- !app_assoc. reflexivity.
  - destruct (Hq st) as [Hs Hl]. rewrite Heq in Hs, Hl. exact (conj Hs Hl).
Qed.

Lemma waitUntilFileExists_query (file : vfs_File) (retries : Z) :
  query (vf_Exists file) -> query (waitUntilFileExists file retries).
Proof.
  intros Hq st. unfold waitUntilFileExists.
  destruct (vf_isMock file);
    [cbn; split; [reflexivity | exists []; now rewrite app_nil_r] |].
  destruct (int_eqb retries (-1));
    [cbn; split; [reflexivity | exists []; now rewrite app_nil_r] |].
  apply wait_loop_query, Hq.
Qed.

(** With a budget that is not negative the poller asks Exists at most
    [retries] times. *)
Lemma wait_loop_bound (file : vfs_File) (retries : Z) (n : nat) :
  forall (retryCount : Z) (st : St),
    0 <= retryCount -> retries < 2 ^ 63 ->
    retries - retryCount = Z.of_nat n ->
    (forall s, count is_head (log (snd (vf_Exists file s)))
               = S (count is_head (log s))) ->
    (count is_head (log (snd (wait_loop file retries retryCount st)))
     <= count is_head (log st) + n)%nat.
Proof.
  induction n as [| n IH]; intros retryCount st H0 Hr Hn Hex;
    rewrite wait_loop_step.
  - replace retryCount with retries by lia.
    unfold int_eqb. rewrite Z.eqb_refl. cbn. lia.
  - destruct (int_eqb retryCount retries); [cbn; lia |].
    pose proof (Hex st) as Hst.
    destruct (vf_Exists file st) as [[[[|] [e|]]|] st1]; cbn in *; try lia.
    assert (Hw : int_add retryCount 1 = retryCount + 1).
    { unfold int_add, int_wrap. rewrite Z.mod_small; lia. }
    rewrite Hw.
    eapply Nat.le_trans; [apply IH; try lia; assumption |].
    cbn. unfold count in *. rewrite filter_app, length_app. cbn. lia.
Qed.

Lemma poller_skips (file : vfs_File) (st : St) :
  waitUntilFileExists file (-1) st = (Returns None, st).
Proof.
  unfold waitUntilFileExists. destruct (vf_isMock file); reflexivity.
Qed.

Lemma poller_timeout_is_not_poll_error (file : vfs_File) (retries : Z) :
  timeout_error file retries <> poll_error.
Proof. discriminate. Qed.

(** An error of Exists ends the poll at once, with the error of the poll,
    provided the budget lets the check happen. *)
Lemma poller_aborts_on_error (file : vfs_File) (retries : Z) (st st1 : St)
    (b : bool) (e : error) :
  vf_isMock file = false ->
  int_eqb retries (-1) = false ->
  int_eqb 0 retries = false ->
  vf_Exists file st = (Returns (b, Some e), st1) ->
  waitUntilFileExists file retries st = (Returns (Some poll_error), st1).
Proof.
  intros Hm H1 H0 He. unfold waitUntilFileExists. rewrite Hm, H1.
  rewrite wait_loop_step, H0, He. destruct b; reflexivity.
Qed.

(** With a budget of 2, two checks that find nothing end the poll with the
    timeout: there is no third check. *)
Lemma poller_budget_2 (file : vfs_File) (st st1 st2 : St) :
  vf_isMock file = false ->
  vf_Exists file st = (Returns (false, None), st1) ->
  vf_Exists file {| self := self st1; log := log st1 ++ [ESleep 1] |}
    = (Returns (false, None), st2) ->
  waitUntilFileExists file 2 st
  = (Returns (Some (timeout_error file 2)),
     {| self := self st2; log := log st2 ++ [ESleep 1] |}).
Proof.
  intros Hm H1 H2. unfold waitUntilFileExists. rewrite Hm.
  change (int_eqb 2 (-1)) with false. cbv iota.
  rewrite wait_loop_step. change (int_eqb 0 2) with false. cbv iota.
  rewrite H1. cbn [run_call snd].
  rewrite wait_loop_step. change (int_eqb (int_add 0 1) 2) with false. cbv iota.
  rewrite H2. cbn [run_call snd].
  rewrite wait_loop_step. change (int_eqb (int_add (int_add 0 1) 1) 2) with true.
  reflexivity.
Qed.

(** C2 (the code at the failing input): with a retry budget of 2 and an
    object that is absent at the first two checks and visible at the third,
    the poller asks Exists twice, sleeps twice and fails with the timeout
    error; the third check, which would have found the object, is never
    made. *)
Theorem poller_budget_2_never_checks_a_third_time :
  fst (waitUntilFileExists (as_vfs_File uri (self visible_at_third)) 2
                           visible_at_third)
  = Returns (Some (timeout_error (as_vfs_File uri (self visible_at_third)) 2))
  /\ log (snd (waitUntilFileExists (as_vfs_File uri (self visible_at_third)) 2
                                   visible_at_third))
     = [head_event; ESleep 1; head_event; ESleep 1]
  /\ fst (Exists (snd (waitUntilFileExists
                         (as_vfs_File uri (self visible_at_third)) 2
                         visible_at_third)))
     = Returns (true, None).
Proof. vm_compute. repeat split. Qed.

(** The other scenarios of the poller, run: three misses with a budget of 2
    time out after two checks; the budget -1 returns at once, without a call;
    an error of Exists ends the poll with the error of the poll. *)
Example poller_budget_2_absent_thrice :
  fst (waitUntilFileExists (as_vfs_File uri (self absent_thrice)) 2 absent_thrice)
  = Returns (Some (timeout_error (as_vfs_File uri (self absent_thrice)) 2))
  /\ count is_head
       (log (snd (waitUntilFileExists (as_vfs_File uri (self absent_thrice)) 2
                                      absent_thrice)))
     = 2%nat.
Proof. vm_compute. split; reflexivity. Qed.

Example poller_budget_minus_1 :
  waitUntilFileExists (as_vfs_File uri (self absent_thrice)) (-1) absent_thrice
  = (Returns None, absent_thrice).
Proof. apply poller_skips. Qed.

Example poller_error_of_Exists :
  fst (waitUntilFileExists (as_vfs_File uri (self throttled_head)) 2 throttled_head)
  = Returns (Some poll_error)
  /\ log (snd (waitUntilFileExists (as_vfs_File uri (self throttled_head)) 2
                                   throttled_head))
     = [head_event].
Proof. vm_compute. split; reflexivity. Qed.

(** ** Exists, continued *)

Lemma not_found_class_spec (e : error) :
  not_found_class e = true
  <-> exists msg, e = AwsError "NoSuchKey" msg \/ e = AwsError "NotFound" msg.
Proof.
  unfold not_found_class. split.
  - destruct e as [code msg | |]; cbn; try discriminate.
    intros H. exists msg. apply orb_true_iff in H.
    destruct H as [H | H]; apply String.eqb_eq in H; subst; auto.
  - intros [msg [-> | ->]]; reflexivity.
Qed.

(** C5, as stated, fails: a metadata query that fails with an error that is
    not of the not-found class, and is not an AWS error either, does not make
    Exists return [(false, err)]. *)
Lemma Exists_foreign_error_counterexample :
  head_answer broken_head = Err broken_pipe
  /\ not_found_class broken_pipe = false
  /\ fst (Exists broken_head) <> Returns (false, Some broken_pipe).
Proof. vm_compute. repeat split. discriminate. Qed.

(** C5 (amended): Exists returns [(true, nil)] when the metadata query
    succeeds; it returns [(false, nil)] exactly when the query fails with an
    error of the not-found class, that is an AWS error whose code is
    [NoSuchKey] or [NotFound]; and it returns [(false, err)] for every other
    AWS error [err], so no other failure is reported as "does not exist". *)
Theorem Exists_classifies (st : St) :
  (forall h, head_answer st = Ok h -> fst (Exists st) = Returns (true, None))
  /\ (fst (Exists st) = Returns (false, None)
      <-> exists e, head_answer st = Err e /\ not_found_class e = true)
  /\ (forall e, not_found_class e = true
                <-> exists msg, e = AwsError "NoSuchKey" msg
                                \/ e = AwsError "NotFound" msg)
  /\ (forall code msg,
        head_answer st = Err (AwsError code msg) ->
        not_found_class (AwsError code msg) = false ->
        fst (Exists st) = Returns (false, Some (AwsError code msg))).
Proof.
  rewrite Exists_run. cbn [fst]. repeat split.
  - intros h ->. reflexivity.
  - destruct (head_answer st) as [h | e]; [discriminate |].
    destruct (awserr_Code e) eqn:Hc; [| discriminate].
    destruct (not_found_class e) eqn:Hn; [eauto | discriminate].
  - intros [e [-> Hn]]. unfold not_found_class in Hn |- *.
    destruct (awserr_Code e); [| discriminate]. rewrite Hn. reflexivity.
  - apply not_found_class_spec.
  - apply not_found_class_spec.
  - intros code msg -> Hn. cbn [awserr_Code]. rewrite Hn. reflexivity.
Qed.

Lemma Exists_classifies_witness :
  fst (Exists throttled_head) = Returns (false, Some slow_down).
Proof.
  destruct (Exists_classifies throttled_head) as (_ & _ & _ & H).
  apply H; reflexivity.
Defined.

(** Exists on a key that is not there, under either code, and on an object
    that is there. *)
Example Exists_on_scripted_clients :
  fst (Exists (start (report (client_head (Err no_such_key))))) = Returns (false, None)
  /\ fst (Exists (start (report (client_head (Err not_found))))) = Returns (false, None)
  /\ fst (Exists (start (report (client_head head_ok)))) = Returns (true, None).
Proof. vm_compute. repeat split. Qed.

(** C10: when the metadata query fails, Exists asserts the error to be an AWS
    error before it looks at its code.  On an error of another type it
    panics, with the query logged, instead of returning [(false, err)]; on an
    AWS error it does not panic; and whenever it returns an error, that error
    is the AWS error of the query. *)
Theorem Exists_asserts_aws_error (st : St) (e : error) :
  head_answer st = Err e ->
  (awserr_Code e = None -> Exists st = (Panics, head_logged st))
  /\ (awserr_Code e <> None -> fst (Exists st) <> Panics)
  /\ (forall b e' st', Exists st = (Returns (b, Some e'), st') ->
        b = false /\ e' = e /\ exists code msg, e = AwsError code msg).
Proof.
  intros Hh. rewrite Exists_run, Hh. split; [| split].
  - intros ->. reflexivity.
  - destruct (awserr_Code e); [| congruence].
    destruct (not_found_class e); discriminate.
  - intros b e' st' H.
    destruct e as [code msg | |]; cbn [awserr_Code] in H; try discriminate.
    destruct (not_found_class (AwsError code msg)); inversion H; subst.
    repeat split; eauto.
Qed.

Lemma Exists_asserts_aws_error_witness :
  Exists broken_head = (Panics, head_logged broken_head).
Proof.
  destruct (Exists_asserts_aws_error broken_head broken_pipe eq_refl) as [H _].
  apply H. reflexivity.
Defined.

(** The loop does not panic when its checks do not. *)
Lemma wait_loop_returns (file : vfs_File) (retries retryCount : Z) (st : St) :
  (forall s, self s = self st -> fst (vf_Exists file s) <> Panics) ->
  (forall s, self (snd (vf_Exists file s)) = self s) ->
  fst (wait_loop file retries retryCount st) <> Panics.
Proof.
  funelim (wait_loop file retries retryCount st); intros Hnp Hself;
    try rewrite <- Heqcall; try discriminate.
  - match goal with
    | IH : (forall s, _ -> _) -> _ |- _ => apply IH; [| exact Hself]
    end.
    intros s Hs. apply Hnp. rewrite Hs. cbn [run_call snd self].
    pose proof (Hself st) as H1. rewrite Heq in H1. exact H1.
  - exfalso. apply (Hnp st eq_refl). rewrite Heq. reflexivity.
Qed.

Lemma Exists_returns (st : St) :
  head_errors_are_aws st -> fst (Exists st) <> Panics.
Proof.
  intros H. rewrite Exists_run. cbn [fst].
  destruct (head_answer st) as [h | e] eqn:Hh; [discriminate |].
  pose proof (H (log st) e Hh) as Hc.
  destruct (awserr_Code e); [| congruence].
  destruct (not_found_class e); discriminate.
Qed.

(** The poll of a File does not panic on a client whose metadata errors are
    AWS errors. *)
Lemma poll_of_File_returns (uri : File -> string) (f : File) (retries : Z)
    (st : St) :
  head_errors_are_aws st ->
  fst (waitUntilFileExists (as_vfs_File uri f) retries st) <> Panics.
Proof.
  intros H. unfold waitUntilFileExists. cbn [vf_isMock as_vfs_File].
  destruct (int_eqb retries (-1)); [discriminate |].
  apply wait_loop_returns; cbn [vf_Exists as_vfs_File].
  - intros s Hs. apply Exists_returns. unfold head_errors_are_aws.
    rewrite Hs. exact H.
  - intros s. exact (proj1 (Exists_query s)).
Qed.

(** ** Close *)

Section CloseFacts.

Variable os : OS.
Variable GetFileURI : File -> string.


Lemma poll_of_File_query (f : File) (retries : Z) :
  query (waitUntilFileExists ((as_vfs_File GetFileURI) f) retries).
Proof. apply waitUntilFileExists_query. exact Exists_query. Qed.

(** The poll Close makes begins with a metadata query, whatever the state. *)
Lemma poll_of_Close_begins (f : File) (st : St) :
  exists rest,
    log (snd (waitUntilFileExists ((as_vfs_File GetFileURI) f) 5 st))
    = log st ++ EHeadObject (bucket (self st)) (key (self st)) :: rest.
Proof.
  unfold waitUntilFileExists. cbn [vf_isMock as_vfs_File].
  change (int_eqb 5 (-1)) with false. cbv iota.
  rewrite wait_loop_step. change (int_eqb 0 5) with false. cbv iota.
  cbn [vf_Exists]. rewrite Exists_run.
  destruct (head_answer st) as [h | e]; [exists []; reflexivity |].
  destruct (awserr_Code e); [| exists []; reflexivity].
  destruct (not_found_class e); [| exists []; reflexivity].
  match goal with
  | |- context [wait_loop ?f ?r ?c ?s] =>
      destruct (wait_loop_query f r c Exists_query s) as [_ [new Hl]];
      rewrite Hl
  end.
  cbn. exists (ESleep 1 :: new). rewrite <- !app_assoc. reflexivity.
Qed.

Lemma Close_wait_errs (errs : MultiErr) (st : St) :
  snd (fst ((Close_wait GetFileURI) errs st)) = errs.
Proof.
  unfold Close_wait.
  destruct (waitUntilFileExists _ _ _) as [[[e |] |] st2]; reflexivity.
Qed.

Lemma Close_wait_self (errs : MultiErr) (st : St) :
  self (snd ((Close_wait GetFileURI) errs st)) = set_writeBuffer (self st) None.
Proof.
  unfold Close_wait. cbn [self log].
  match goal with
  | |- context [waitUntilFileExists ((as_vfs_File GetFileURI) ?f) ?r ?s] =>
      destruct (poll_of_File_query f r s) as [Hs _];
      destruct (waitUntilFileExists ((as_vfs_File GetFileURI) f) r s) as [[[e |] |] st2]
  end; exact Hs.
Qed.

Lemma Close_wait_log (errs : MultiErr) (st : St) :
  exists rest,
    log (snd ((Close_wait GetFileURI) errs st))
    = log st ++ EHeadObject (bucket (self st)) (key (self st)) :: rest.
Proof.
  unfold Close_wait. cbn [self log].
  match goal with
  | |- context [waitUntilFileExists ((as_vfs_File GetFileURI) ?f) ?r ?s] =>
      destruct (poll_of_Close_begins f s) as [rest Hl];
      destruct (waitUntilFileExists ((as_vfs_File GetFileURI) f) r s) as [[[e |] |] st2]
  end; exists rest; exact Hl.
Qed.

Lemma Close_commit_no_buffer (errs : MultiErr) (st : St) :
  writeBuffer (self st) = None -> (Close_commit GetFileURI) errs st = (Close_wait GetFileURI) errs st.
Proof. unfold Close_commit. intros ->. reflexivity. Qed.

Lemma Close_commit_failed (errs : MultiErr) (st : St) (body : list Byte.byte)
    (e : error) (n : nat) :
  writeBuffer (self st) = Some body ->
  upload_answer st body = UploadErr e n ->
  (Close_commit GetFileURI) errs st
  = (Returns (Some e), errs ++ [e],
     {| self := set_writeBuffer (self st) (Some (skipn n body));
        log := log st ++ [upload_event st body] |}).
Proof.
  unfold Close_commit, upload_answer, upload_event, run_call.
  intros -> ->. reflexivity.
Qed.

Lemma Close_commit_done (errs : MultiErr) (st : St) (body : list Byte.byte) :
  writeBuffer (self st) = Some body ->
  upload_answer st body = UploadOk ->
  (Close_commit GetFileURI) errs st
  = (Close_wait GetFileURI) errs {| self := self st; log := log st ++ [upload_event st body] |}.
Proof.
  unfold Close_commit, upload_answer, upload_event, run_call.
  intros -> ->. reflexivity.
Qed.

Lemma Close_commit_self (errs : MultiErr) (st : St) :
  same_identity (self st) (self (snd ((Close_commit GetFileURI) errs st)))
  /\ tempFile (self (snd ((Close_commit GetFileURI) errs st))) = tempFile (self st).
Proof.
  destruct (writeBuffer (self st)) as [body |] eqn:Hb.
  - destruct (upload_answer st body) as [| e n] eqn:Hu.
    + rewrite (Close_commit_done errs st body Hb Hu), Close_wait_self.
      cbn. repeat split.
    + rewrite (Close_commit_failed errs st body e n Hb Hu). cbn. repeat split.
  - rewrite (Close_commit_no_buffer errs st Hb), Close_wait_self.
    cbn. repeat split.
Qed.

Lemma Close_past_mirror (st : St) :
  remove_fails os st = false ->
  (Close os GetFileURI) st
  = (let '(r, errs1, st1) := (Close_commit GetFileURI) NewMutliErr (mirror_released st) in
     let (errs2, st2) := run_deferred os (tempFile (self st)) errs1 st1 in
     (match r with
      | Returns _ => Returns (OrNil errs2)
      | Panics => Panics
      end, st2)).
Proof.
  unfold Close, Close_body, remove_fails, mirror_released,
    run_call.
  destruct (tempFile (self st)) as [tf |]; cbn [self log].
  - destruct (os_Remove os (log st) (tf_name tf)) as [e |].
    + destruct (os_IsNotExist e); [| discriminate]. intros _. cbn [negb].
      destruct (Close_commit _ _ _) as [[r errs1] st1].
      destruct (run_deferred _ _ _ _); destruct r; reflexivity.
    + intros _.
      destruct (Close_commit _ _ _) as [[r errs1] st1].
      destruct (run_deferred _ _ _ _); destruct r; reflexivity.
  - intros _.
    destruct (Close_commit _ _ _) as [[r errs1] st1].
    cbn. destruct r; reflexivity.
Qed.

Lemma Close_at_failed_removal (st : St) (tf : OsFile) (e : error) :
  tempFile (self st) = Some tf ->
  os_Remove os (log st) (tf_name tf) = Some e ->
  os_IsNotExist e = false ->
  (Close os GetFileURI) st
  = (Returns (Some e),
     {| self := self st;
        log := log st ++ [ERemove (tf_name tf); EFileClose (tf_name tf)] |}).
Proof.
  intros Ht Hr Hn.
  unfold Close, Close_body, run_call.
  rewrite Ht, Hr, Hn. cbn.
  unfold DeferFunc, tempFile_Close, run_call. cbn [self log].
  rewrite <- app_assoc. cbn [app].
  destruct (os_FileClose os _ _); reflexivity.
Qed.

(** The deferred close adds its event and leaves the receiver alone; it adds
    its error after those aggregated before. *)
Lemma run_deferred_spec (deferred : option OsFile) (errs : MultiErr) (st : St) :
  self (snd (run_deferred os deferred errs st)) = self st
  /\ (exists new, log (snd (run_deferred os deferred errs st)) = log st ++ new
                  /\ count is_remote new = 0%nat)
  /\ (exists more, fst (run_deferred os deferred errs st) = errs ++ more).
Proof.
  destruct deferred as [tf |]; cbn.
  - unfold DeferFunc, tempFile_Close, run_call. cbn [self log].
    destruct (os_FileClose os (log st) (tf_name tf)) as [e |]; cbn;
      (split; [reflexivity | split; [eexists; split; [reflexivity | reflexivity] |]]).
    + exists [e]. reflexivity.
    + exists []. now rewrite app_nil_r.
  - split; [reflexivity | split].
    + exists []. rewrite app_nil_r. split; reflexivity.
    + exists []. now rewrite app_nil_r.
Qed.

(** Without a mirror and without a buffer Close still polls: its first call
    is a metadata query.  It returns no error, unless Exists panics. *)
Lemma Close_polls_without_a_write (st : St) :
  tempFile (self st) = None ->
  writeBuffer (self st) = None ->
  (exists rest,
      log (snd ((Close os GetFileURI) st))
      = log st ++ EHeadObject (bucket (self st)) (key (self st)) :: rest)
  /\ (fst ((Close os GetFileURI) st) = Returns None \/ fst ((Close os GetFileURI) st) = Panics)
  /\ self (snd ((Close os GetFileURI) st)) = self st.
Proof.
  intros Ht Hb.
  rewrite Close_past_mirror by (unfold remove_fails; now rewrite Ht).
  unfold mirror_released. rewrite Ht.
  rewrite (Close_commit_no_buffer NewMutliErr st Hb).
  pose proof (Close_wait_errs NewMutliErr st) as He.
  pose proof (Close_wait_self NewMutliErr st) as Hs.
  pose proof (Close_wait_log NewMutliErr st) as Hl.
  destruct ((Close_wait GetFileURI) NewMutliErr st) as [[r errs1] st1].
  cbn in He, Hs, Hl |- *. subst errs1.
  split; [exact Hl | split].
  - destruct r; auto.
  - destruct r; cbn; rewrite Hs; destruct (self st); cbn in *; subst; reflexivity.
Qed.

(** The poll of Close does not panic on a client whose metadata errors are
    AWS errors. *)
Lemma Close_wait_returns (errs : MultiErr) (st : St) :
  head_errors_are_aws st ->
  fst (fst ((Close_wait GetFileURI) errs st)) <> Panics.
Proof.
  intros H. unfold Close_wait. cbn [self log].
  match goal with
  | |- context [waitUntilFileExists ((as_vfs_File GetFileURI) ?f) ?r ?s] =>
      pose proof (poll_of_File_returns GetFileURI f r s H) as Hp;
      destruct (waitUntilFileExists ((as_vfs_File GetFileURI) f) r s)
        as [[[e |] |] st2]
  end; cbn [fst] in Hp |- *; congruence.
Qed.

Lemma mirror_released_buffer (st : St) :
  writeBuffer (self (mirror_released st)) = writeBuffer (self st).
Proof. unfold mirror_released. destruct (tempFile (self st)); reflexivity. Qed.

Lemma mirror_released_with (st : St) (tf : OsFile) :
  tempFile (self st) = Some tf ->
  mirror_released st
  = {| self := set_tempFile (self st) None;
       log := log st ++ [ERemove (tf_name tf)] |}.
Proof. unfold mirror_released. intros ->. reflexivity. Qed.

(** C4 (amended): when Close is invoked with a mirror and a write buffer and
    the removal of the mirror's temporary storage fails with an error other
    than "does not exist", Close returns that error at once: the commit is
    not attempted and both references stay; only the deferred close of the
    mirror's resource is still attempted.  When the removal does not fail and
    the commit fails, Close returns the commit error, the first aggregated,
    whatever the close of the mirror's resource answers.  When neither fails
    and the errors the client answers to the metadata queries of the poll are
    AWS errors, Close returns what the close of the mirror's resource
    answers, nothing on full success. *)
Theorem Close_returns_first_failure (st : St) (tf : OsFile)
    (body : list Byte.byte) :
  tempFile (self st) = Some tf ->
  writeBuffer (self st) = Some body ->
  (forall e,
      os_Remove os (log st) (tf_name tf) = Some e ->
      os_IsNotExist e = false ->
      (Close os GetFileURI) st
      = (Returns (Some e),
         {| self := self st;
            log := log st ++ [ERemove (tf_name tf); EFileClose (tf_name tf)] |}))
  /\ (forall e n,
        remove_fails os st = false ->
        upload_answer (mirror_released st) body = UploadErr e n ->
        fst ((Close os GetFileURI) st) = Returns (Some e)
        /\ log (snd ((Close os GetFileURI) st))
           = log st ++ [ERemove (tf_name tf); upload_event st body;
                        EFileClose (tf_name tf)])
  /\ (forall c,
        remove_fails os st = false ->
        upload_answer (mirror_released st) body = UploadOk ->
        (forall t, os_FileClose os t (tf_name tf) = c) ->
        head_errors_are_aws st ->
        fst ((Close os GetFileURI) st) = Returns c).
Proof.
  intros Ht Hb. split; [| split].
  - intros e Hr Hn. exact (Close_at_failed_removal st tf e Ht Hr Hn).
  - intros e n Hrf Hu.
    rewrite (Close_past_mirror st Hrf).
    rewrite (Close_commit_failed NewMutliErr (mirror_released st) body e n)
      by (rewrite ?mirror_released_buffer; assumption).
    rewrite Ht, (mirror_released_with st tf Ht).
    cbn. unfold DeferFunc, tempFile_Close, run_call, upload_event. cbn [self log].
    destruct (os_FileClose os _ _); cbn;
      (split; [reflexivity | rewrite <- !app_assoc; reflexivity]).
  - intros c Hrf Hu Hc Haws.
    rewrite (Close_past_mirror st Hrf).
    rewrite (Close_commit_done NewMutliErr (mirror_released st) body)
      by (rewrite ?mirror_released_buffer; assumption).
    match goal with
    | |- context [(Close_wait GetFileURI) ?errs ?s] =>
        pose proof (Close_wait_errs errs s) as He;
        assert (Hr : fst (fst ((Close_wait GetFileURI) errs s)) <> Panics);
        [| destruct ((Close_wait GetFileURI) errs s) as [[r errs1] st1]]
    end.
    { apply Close_wait_returns. rewrite (mirror_released_with st tf Ht).
      exact Haws. }
    cbn in He, Hr. subst errs1. rewrite Ht. cbn.
    unfold DeferFunc, tempFile_Close, run_call. rewrite Hc.
    destruct c, r; cbn; congruence.
Qed.

(** C3 (amended): when Close reaches the commit of a write buffer (the
    removal of the mirror's storage, if any, has not failed), it clears the
    buffer reference if the upload succeeds; if the upload fails, Close
    returns the upload error and the buffer reference stays, the buffer
    holding the bytes the uploader has not read. *)
Theorem Close_clears_buffer_after_upload (st : St) (body : list Byte.byte) :
  writeBuffer (self st) = Some body ->
  remove_fails os st = false ->
  match upload_answer (mirror_released st) body with
  | UploadOk => writeBuffer (self (snd ((Close os GetFileURI) st))) = None
  | UploadErr e n =>
      fst ((Close os GetFileURI) st) = Returns (Some e)
      /\ writeBuffer (self (snd ((Close os GetFileURI) st))) = Some (skipn n body)
  end.
Proof.
  intros Hb Hrf. rewrite (Close_past_mirror st Hrf).
  destruct (upload_answer (mirror_released st) body) as [| e n] eqn:Hu.
  - rewrite (Close_commit_done NewMutliErr (mirror_released st) body)
      by (rewrite ?mirror_released_buffer; assumption).
    match goal with
    | |- context [(Close_wait GetFileURI) ?errs ?s] =>
        pose proof (Close_wait_self errs s) as Hs;
        destruct ((Close_wait GetFileURI) errs s) as [[r errs1] st1]
    end.
    cbn in Hs.
    destruct (run_deferred_spec (tempFile (self st)) errs1 st1) as [Hd _].
    destruct (run_deferred os (tempFile (self st)) errs1 st1) as [errs2 st2].
    cbn in Hd |- *. rewrite Hd, Hs. reflexivity.
  - rewrite (Close_commit_failed NewMutliErr (mirror_released st) body e n)
      by (rewrite ?mirror_released_buffer; assumption).
    match goal with
    | |- context [run_deferred os ?d ?errs ?s] =>
        destruct (run_deferred_spec d errs s) as (Hd & _ & more & Hm);
        destruct (run_deferred os d errs s) as [errs2 st2]
    end.
    cbn in Hd, Hm |- *. subst errs2. rewrite Hd. split; reflexivity.
Qed.

End CloseFacts.

(** C1 (the code at the failing input): a File with neither mirror nor
    buffer, on an object that is absent.  Each of two consecutive Close calls
    returns no error and leaves the File as it was, and each asks for the
    metadata of the object five times, sleeping after each: the poller runs
    although nothing was written. *)
Theorem Close_twice_polls_twice :
  fst (Close os_ok uri absent_unwritten) = Returns None
  /\ fst (Close os_ok uri (snd (Close os_ok uri absent_unwritten))) = Returns None
  /\ tempFile (self (snd (Close os_ok uri absent_unwritten))) = None
  /\ writeBuffer (self (snd (Close os_ok uri absent_unwritten))) = None
  /\ log (snd (Close os_ok uri absent_unwritten))
     = [head_event; ESleep 1; head_event; ESleep 1; head_event;
        ESleep 1; head_event; ESleep 1; head_event; ESleep 1]
  /\ count is_remote (log (snd (Close os_ok uri absent_unwritten))) = 5%nat
  /\ count is_remote
       (log (snd (Close os_ok uri (snd (Close os_ok uri absent_unwritten)))))
     = 10%nat.
Proof. vm_compute. repeat split. Qed.

(** C3, as stated, fails: the upload of a buffer fails; Close returns the
    upload error and the buffer reference is not nil: it designates the
    buffer the uploader has emptied, and a second Close submits that buffer
    again. *)
Lemma Close_failed_commit_counterexample :
  writeBuffer (self failing_commit) = Some hello
  /\ fst (Close os_ok uri failing_commit) = Returns (Some slow_down)
  /\ writeBuffer (self (snd (Close os_ok uri failing_commit))) = Some []
  /\ writeBuffer (self (snd (Close os_ok uri failing_commit))) <> None
  /\ log (snd (Close os_ok uri (snd (Close os_ok uri failing_commit))))
     = [upload_hello; EUpload "docs" "a/b/report.txt" "AES256" []].
Proof. vm_compute. repeat split. discriminate. Qed.

Lemma Close_clears_buffer_after_upload_witness :
  fst (Close os_ok uri failing_commit_partial) = Returns (Some slow_down)
  /\ writeBuffer (self (snd (Close os_ok uri failing_commit_partial)))
     = Some (skipn 2 hello).
Proof.
  exact (Close_clears_buffer_after_upload os_ok uri failing_commit_partial
           hello eq_refl eq_refl).
Defined.

(** C4, as stated, fails: with a mirror and a buffer, a removal of the
    mirror's storage that fails with "permission denied" makes Close return
    that error without any upload; the buffer is still there. *)
Lemma Close_failed_removal_counterexample :
  tempFile (self read_and_written) = Some mirror
  /\ writeBuffer (self read_and_written) = Some hello
  /\ fst (Close os_denied uri read_and_written) = Returns (Some access_denied)
  /\ count is_upload (log (snd (Close os_denied uri read_and_written))) = 0%nat
  /\ log (snd (Close os_denied uri read_and_written))
     = [ERemove (tf_name mirror); EFileClose (tf_name mirror)]
  /\ writeBuffer (self (snd (Close os_denied uri read_and_written))) = Some hello.
Proof. vm_compute. repeat split. Qed.

Lemma Close_returns_first_failure_witness :
  Close os_denied uri read_and_written
  = (Returns (Some access_denied),
     {| self := self read_and_written;
        log := log read_and_written
               ++ [ERemove (tf_name mirror); EFileClose (tf_name mirror)] |})
  /\ fst (Close os_ok uri read_and_written) = Returns None.
Proof.
  split.
  2:{ destruct (Close_returns_first_failure os_ok uri read_and_written
                  mirror hello eq_refl eq_refl) as (_ & _ & H).
      apply (H None); try reflexivity.
      intros t e He. cbn in He. destruct (count is_head t); discriminate. }
  destruct (Close_returns_first_failure os_denied uri read_and_written
              mirror hello eq_refl eq_refl) as [H _].
  apply H; reflexivity.
Defined.

(** ** Write *)

Lemma Write_run (data : list Byte.byte) (st : St) :
  Write data st
  = (Returns (Z.of_nat (length data), None),
     {| self := set_writeBuffer (self st) (Some (buffered (self st) ++ data));
        log := log st |}).
Proof.
  destruct st as [[fs b k tmp [buf |]] t]; reflexivity.
Qed.

Lemma run_writes_log (l : list (list Byte.byte)) (st : St) :
  log (run_writes l st) = log st.
Proof.
  revert st. induction l as [| d l IH]; intros st; [reflexivity |].
  change (run_writes (d :: l) st) with (run_writes l (snd (Write d st))).
  rewrite IH, Write_run. reflexivity.
Qed.

Lemma run_writes_self (l : list (list Byte.byte)) (d : list Byte.byte) (st : St) :
  self (run_writes (d :: l) st)
  = set_writeBuffer (self st) (Some (buffered (self st) ++ concat (d :: l))).
Proof.
  revert d st. induction l as [| d' l IH]; intros d st.
  - change (run_writes [d] st) with (snd (Write d st)).
    rewrite Write_run. cbn. rewrite app_nil_r. reflexivity.
  - change (run_writes (d :: d' :: l) st)
      with (run_writes (d' :: l) (snd (Write d st))).
    rewrite IH, Write_run. cbn. unfold buffered. cbn.
    rewrite <- app_assoc. reflexivity.
Qed.

(** C8: Write returns the length of its argument and no error, and leaves in
    the buffer what was there followed by the argument; on a File without a
    buffer the buffer then holds the argument alone, so it was created empty.
    Write makes no call: the log is the same after any number of writes, and
    the buffer holds their arguments in order. *)
Theorem Write_appends_to_the_buffer (data : list Byte.byte) (st : St) :
  fst (Write data st) = Returns (Z.of_nat (length data), None)
  /\ writeBuffer (self (snd (Write data st))) = Some (buffered (self st) ++ data)
  /\ (writeBuffer (self st) = None ->
      writeBuffer (self (snd (Write data st))) = Some data)
  /\ same_identity (self st) (self (snd (Write data st)))
  /\ tempFile (self (snd (Write data st))) = tempFile (self st)
  /\ log (snd (Write data st)) = log st
  /\ (forall l, log (run_writes l st) = log st)
  /\ (forall d l,
        writeBuffer (self (run_writes (d :: l) st))
        = Some (buffered (self st) ++ concat (d :: l))).
Proof.
  rewrite Write_run. cbn [fst snd self log writeBuffer set_writeBuffer tempFile].
  split; [reflexivity |]. split; [reflexivity |].
  split; [unfold buffered; intros ->; reflexivity |].
  split; [repeat split |]. split; [reflexivity |]. split; [reflexivity |].
  split; [intros l; apply run_writes_log |].
  intros d l. rewrite run_writes_self. reflexivity.
Qed.

Lemma Write_appends_to_the_buffer_witness :
  writeBuffer (self (snd (Write hello fresh))) = Some hello.
Proof.
  destruct (Write_appends_to_the_buffer hello fresh) as (_ & _ & H & _).
  apply H. reflexivity.
Defined.

(** ** Construction *)

Lemma CleanPrefix_no_leading_separator (k rest : string) :
  CleanPrefix k <> String "/" rest.
Proof.
  induction k as [| c k IH]; cbn; [discriminate |].
  destruct c as [[] [] [] [] [] [] [] []]; try (intros H; inversion H; fail).
  exact IH.
Qed.

Lemma CleanPrefix_fixes (k : string) :
  (forall rest, k <> String "/" rest) -> CleanPrefix k = k.
Proof.
  destruct k as [| c k]; [reflexivity |].
  intros H. cbn.
  destruct c as [[] [] [] [] [] [] [] []]; try reflexivity.
  exfalso. exact (H k eq_refl).
Qed.

Lemma CleanPrefix_strips (k : string) :
  exists lead,
    k = (lead ++ CleanPrefix k)%string
    /\ forall c, In c (list_ascii_of_string lead) -> c = "/"%char.
Proof.
  induction k as [| c k (lead & Hk & Hl)].
  - exists EmptyString. split; [reflexivity | intros c []].
  - destruct (Ascii.eqb c "/") eqn:Ec.
    + apply Ascii.eqb_eq in Ec. subst c. cbn [CleanPrefix].
      exists (String "/" lead). split; [cbn; congruence |].
      intros c [<- | Hc]; [reflexivity | exact (Hl c Hc)].
    + exists EmptyString. split; [| intros c' []].
      cbn [append]. symmetry. apply CleanPrefix_fixes.
      intros rest E. inversion E; subst.
      rewrite Ascii.eqb_refl in Ec. discriminate.
Qed.


Lemma newFile_fails_iff (fs : option FileSystem) (b k : string) :
  (exists e, newFile fs b k = Err e) <-> fs = None \/ b = "" \/ k = "".
Proof.
  unfold newFile. split.
  - intros [e H]. destruct fs as [fs |]; [| auto].
    destruct (String.eqb b "") eqn:Hb; [apply String.eqb_eq in Hb; auto |].
    destruct (String.eqb k "") eqn:Hk; [apply String.eqb_eq in Hk; auto |].
    discriminate.
  - intros [-> | [-> | ->]].
    + eexists. reflexivity.
    + destruct fs; eexists; reflexivity.
    + destruct fs; [cbn; rewrite orb_true_r |]; eexists; reflexivity.
Qed.

(** ** The local mirror *)

Section MirrorFacts.

Variable os : OS.

Lemma count_app (p : event -> bool) (t new : trace) :
  count p (t ++ new) = (count p t + count p new)%nat.
Proof. unfold count. rewrite filter_app, length_app. reflexivity. Qed.

Lemma checkTempFile_present (st : St) (tf : OsFile) :
  tempFile (self st) = Some tf -> checkTempFile os st = (Returns None, st).
Proof.
  intros H. unfold checkTempFile, bind, get_self, ret. rewrite H. reflexivity.
Qed.

Lemma Read_present (st : St) (tf : OsFile) (n : nat) :
  tempFile (self st) = Some tf ->
  Read os n st
  = (Returns (snd (OsFile_Read tf n)),
     {| self := set_tempFile (self st) (Some (fst (OsFile_Read tf n)));
        log := log st |}).
Proof.
  intros H. unfold Read, bind. rewrite (checkTempFile_present st tf H).
  unfold get_self, put_self, ret. rewrite H.
  destruct (OsFile_Read tf n). reflexivity.
Qed.

Lemma Seek_present (st : St) (tf : OsFile) (offset whence : Z) :
  tempFile (self st) = Some tf ->
  Seek os offset whence st
  = (Returns (snd (OsFile_Seek tf offset whence)),
     {| self := set_tempFile (self st) (Some (fst (OsFile_Seek tf offset whence)));
        log := log st |}).
Proof.
  intros H. unfold Seek, bind. rewrite (checkTempFile_present st tf H).
  unfold get_self, put_self, ret. rewrite H.
  destruct (OsFile_Seek tf offset whence). reflexivity.
Qed.

Lemma OsFile_Read_keeps (tf : OsFile) (n : nat) :
  tf_name (fst (OsFile_Read tf n)) = tf_name tf
  /\ tf_data (fst (OsFile_Read tf n)) = tf_data tf.
Proof.
  unfold OsFile_Read. destruct n; destruct (firstn _ _); cbn; auto.
Qed.

Lemma OsFile_Seek_keeps (tf : OsFile) (offset whence : Z) :
  tf_name (fst (OsFile_Seek tf offset whence)) = tf_name tf
  /\ tf_data (fst (OsFile_Seek tf offset whence)) = tf_data tf.
Proof.
  unfold OsFile_Seek.
  destruct (whence =? 0); [| destruct (whence =? 1); [| destruct (whence =? 2)]];
    try destruct (_ <? 0); cbn; auto.
Qed.

(** An access to a File that has its mirror works on the mirror: nothing is
    logged, and the mirror keeps its name and its content. *)
Lemma run_access_present (a : access) (st : St) (tf : OsFile) :
  tempFile (self st) = Some tf ->
  log (run_access os a st) = log st
  /\ same_identity (self st) (self (run_access os a st))
  /\ writeBuffer (self (run_access os a st)) = writeBuffer (self st)
  /\ exists tf', tempFile (self (run_access os a st)) = Some tf'
                 /\ tf_name tf' = tf_name tf /\ tf_data tf' = tf_data tf.
Proof.
  intros H. destruct a as [n | offset whence]; cbn [run_access].
  - rewrite (Read_present st tf n H). cbn.
    repeat split. eexists. split; [reflexivity | apply OsFile_Read_keeps].
  - rewrite (Seek_present st tf offset whence H). cbn.
    repeat split. eexists. split; [reflexivity | apply OsFile_Seek_keeps].
Qed.

Lemma run_accesses_present (l : list access) :
  forall (st : St) (tf : OsFile),
    tempFile (self st) = Some tf ->
    log (run_accesses os l st) = log st
    /\ exists tf', tempFile (self (run_accesses os l st)) = Some tf'
                   /\ tf_name tf' = tf_name tf /\ tf_data tf' = tf_data tf.
Proof.
  induction l as [| a l IH]; intros st tf H.
  - cbn. eauto.
  - change (run_accesses os (a :: l) st)
      with (run_accesses os l (run_access os a st)).
    destruct (run_access_present a st tf H) as (Hl & _ & _ & tf1 & H1 & Hn & Hd).
    destruct (IH _ tf1 H1) as (Hl' & tf2 & H2 & Hn' & Hd').
    split; [congruence |]. exists tf2. repeat split; congruence.
Qed.

(** Without a mirror [checkTempFile] starts a materialization: it creates a
    temporary file.  If it returns no error, the mirror is set, with the body
    the client answered and the cursor at 0, after exactly one retrieval; if
    it returns an error, the File is as before, without mirror. *)
Lemma checkTempFile_absent (st : St) :
  tempFile (self st) = None ->
  (exists rest,
      log (snd (checkTempFile os st))
      = log st ++ ETempFile (temp_pattern os st) :: rest)
  /\ match fst (checkTempFile os st) with
     | Returns None =>
         exists name body,
           get_answer os st = Ok body
           /\ self (snd (checkTempFile os st))
              = set_tempFile (self st)
                  (Some {| tf_name := name; tf_data := body; tf_pos := 0 |})
           /\ count is_get (log (snd (checkTempFile os st)))
              = S (count is_get (log st))
     | Returns (Some e) => self (snd (checkTempFile os st)) = self st
     | Panics => False
     end.
Proof.
  intros H.
  unfold checkTempFile, copyToLocalTempReader, getObject, call, bind, get_self,
    get_log, put_self, emit, ret, get_answer, temp_pattern.
  cbn [self log fst snd]. rewrite H. cbn [self log fst snd].
  destruct (os_TempFile os _ _) as [name | e]; cbn [self log fst snd];
    [| split; [eexists; reflexivity | reflexivity]].
  destruct (api_GetObject _ _ _ _) as [body | e]; cbn [self log fst snd];
    [| split; [eexists; rewrite <- !app_assoc; reflexivity | reflexivity]].
  destruct (os_IoCopy os _ _ _) as [e |]; cbn [self log fst snd];
    [split; [eexists; rewrite <- !app_assoc; reflexivity | reflexivity] |].
  destruct (os_SeekStart os _ _) as [e |]; cbn [self log fst snd];
    [split; [eexists; rewrite <- !app_assoc; reflexivity | reflexivity] |].
  split; [eexists; rewrite <- !app_assoc; reflexivity |].
  exists name, body. split; [reflexivity | split; [reflexivity |]].
  rewrite <- !app_assoc, count_app. cbn. lia.
Qed.

Lemma Read_after_failure (st st' : St) (n : nat) (e : error) :
  checkTempFile os st = (Returns (Some e), st') ->
  Read os n st = (Returns ([], 0, Some e), st').
Proof. intros H. unfold Read, bind. rewrite H. reflexivity. Qed.

Lemma Read_after_materialization (st st' : St) (n : nat) (tf : OsFile) :
  checkTempFile os st = (Returns None, st') ->
  tempFile (self st') = Some tf ->
  Read os n st = Read os n st'.
Proof.
  intros H Ht. unfold Read at 1. unfold bind. rewrite H.
  rewrite (Read_present st' tf n Ht).
  unfold get_self, put_self, ret. rewrite Ht.
  destruct (OsFile_Read tf n). reflexivity.
Qed.

(** The first Read of a File without mirror, when it returns no error, has
    read from offset 0 of the body the client answered. *)
Lemma first_Read_reads_from_the_start (st : St) (n : nat)
    (got : list Byte.byte) (k : Z) :
  tempFile (self st) = None ->
  fst (Read os n st) = Returns (got, k, None) ->
  exists body, get_answer os st = Ok body
               /\ got = firstn n body /\ k = Z.of_nat (length got).
Proof.
  intros Ht Hr.
  destruct (checkTempFile_absent st Ht) as [_ Hc].
  destruct (checkTempFile os st) as [[[e |] |] st'] eqn:E; cbn [fst snd] in Hc.
  - rewrite (Read_after_failure st st' n e E) in Hr. discriminate.
  - destruct Hc as (name & body & Hg & Hs & _).
    assert (Ht' : tempFile (self st')
                  = Some {| tf_name := name; tf_data := body; tf_pos := 0 |})
      by (rewrite Hs; reflexivity).
    rewrite (Read_after_materialization st st' n _ E Ht') in Hr.
    rewrite (Read_present st' _ n Ht') in Hr. cbn [fst] in Hr.
    exists body. split; [exact Hg |].
    unfold OsFile_Read in Hr. cbn [tf_pos tf_data Z.to_nat skipn] in Hr.
    destruct n as [| n]; [cbn in Hr; inversion Hr; auto |].
    destruct (firstn (S n) body) as [| x got'] eqn:Ef; cbn in Hr;
      [discriminate | inversion Hr; auto].
  - contradiction.
Qed.

End MirrorFacts.

(** ** The identity of a File *)

Section IdentityFacts.

Variable os : OS.
Variable GetFileURI : File -> string.

Lemma same_identity_refl (f : File) : same_identity f f.
Proof. repeat split. Qed.

Lemma same_identity_trans (f g h : File) :
  same_identity f g -> same_identity g h -> same_identity f h.
Proof. intros (A & B & C) (A' & B' & C'). repeat split; congruence. Qed.

Lemma checkTempFile_keeps_identity : keeps_identity (checkTempFile os).
Proof.
  intros st. destruct (tempFile (self st)) as [tf |] eqn:Ht.
  - rewrite (checkTempFile_present os st tf Ht). apply same_identity_refl.
  - destruct (checkTempFile_absent os st Ht) as [_ Hc].
    destruct (checkTempFile os st) as [[[e |] |] st']; cbn [fst snd] in Hc |- *.
    + rewrite Hc. apply same_identity_refl.
    + destruct Hc as (name & body & _ & -> & _). repeat split.
    + contradiction.
Qed.

Lemma Read_keeps_identity (n : nat) : keeps_identity (Read os n).
Proof.
  intros st. pose proof (checkTempFile_keeps_identity st) as Hc.
  unfold Read, bind.
  destruct (checkTempFile os st) as [[[e |] |] st']; cbn [fst snd] in Hc |- *;
    try exact Hc.
  unfold get_self, put_self, ret.
  destruct (tempFile (self st')) as [tf |]; [| exact Hc].
  destruct (OsFile_Read tf n). cbn.
  eapply same_identity_trans; [exact Hc | repeat split].
Qed.

Lemma Seek_keeps_identity (offset whence : Z) :
  keeps_identity (Seek os offset whence).
Proof.
  intros st. pose proof (checkTempFile_keeps_identity st) as Hc.
  unfold Seek, bind.
  destruct (checkTempFile os st) as [[[e |] |] st']; cbn [fst snd] in Hc |- *;
    try exact Hc.
  unfold get_self, put_self, ret.
  destruct (tempFile (self st')) as [tf |]; [| exact Hc].
  destruct (OsFile_Seek tf offset whence). cbn.
  eapply same_identity_trans; [exact Hc | repeat split].
Qed.

Lemma Write_keeps_identity (data : list Byte.byte) : keeps_identity (Write data).
Proof. intros st. rewrite Write_run. repeat split. Qed.

Lemma Exists_keeps_identity : keeps_identity Exists.
Proof.
  intros st. destruct (Exists_query st) as [-> _]. apply same_identity_refl.
Qed.

Lemma Close_keeps_identity : keeps_identity (Close os GetFileURI).
Proof.
  intros st. destruct (remove_fails os st) eqn:Hrf.
  - unfold remove_fails in Hrf.
    destruct (tempFile (self st)) as [tf |] eqn:Ht; [| discriminate].
    destruct (os_Remove os (log st) (tf_name tf)) as [e |] eqn:Hr; [| discriminate].
    rewrite (Close_at_failed_removal os GetFileURI st tf e Ht Hr)
      by (destruct (os_IsNotExist e); [discriminate | reflexivity]).
    apply same_identity_refl.
  - rewrite (Close_past_mirror os GetFileURI st Hrf).
    destruct (Close_commit_self GetFileURI NewMutliErr (mirror_released st))
      as [Hi _].
    destruct (Close_commit GetFileURI NewMutliErr (mirror_released st))
      as [[r errs1] st1].
    destruct (run_deferred_spec os (tempFile (self st)) errs1 st1) as [Hd _].
    destruct (run_deferred os (tempFile (self st)) errs1 st1) as [errs2 st2].
    cbn [fst snd] in Hi, Hd |- *. rewrite Hd.
    eapply same_identity_trans; [| exact Hi].
    unfold mirror_released. destruct (tempFile (self st)); repeat split.
Qed.

Lemma Delete_keeps_identity : keeps_identity (Delete os GetFileURI).
Proof.
  intros st. unfold Delete, bind, get_self, put_self, call, get_log, emit, ret.
  cbn [self log fst snd].
  match goal with
  | |- context [Close os GetFileURI ?s] =>
      pose proof (Close_keeps_identity s) as Hc;
      destruct (Close os GetFileURI s) as [[[e |] |] st']
  end; cbn [self log fst snd] in Hc |- *;
    (eapply same_identity_trans; [| exact Hc]); repeat split.
Qed.

(** C9: construction fails, with an error and no File, exactly when the file
    system reference is nil or the bucket or the key is the empty string.  On
    success the File holds the file system and the bucket as given and the
    key without its leading path separators, and has neither mirror nor
    buffer; [newFile] is a function of its arguments alone, it makes no call.
    Afterwards no method changes the file system, the bucket or the key. *)
Theorem newFile_validates_and_identity_stays (fs : option FileSystem)
    (b k : string) :
  ((exists e, newFile fs b k = Err e) <-> fs = None \/ b = "" \/ k = "")
  /\ (forall f,
        newFile fs b k = Ok f ->
        fs = Some (fileSystem f) /\ bucket f = b /\ key f = CleanPrefix k
        /\ (forall rest, key f <> String "/" rest)
        /\ tempFile f = None /\ writeBuffer f = None)
  /\ (exists lead,
        k = (lead ++ CleanPrefix k)%string
        /\ forall c, In c (list_ascii_of_string lead) -> c = "/"%char)
  /\ ((forall rest, k <> String "/" rest) -> CleanPrefix k = k)
  /\ keeps_identity Exists
  /\ (forall n, keeps_identity (Read os n))
  /\ (forall offset whence, keeps_identity (Seek os offset whence))
  /\ (forall data, keeps_identity (Write data))
  /\ keeps_identity (Close os GetFileURI)
  /\ keeps_identity (Delete os GetFileURI).
Proof.
  split; [apply newFile_fails_iff |]. split.
  - intros f H. unfold newFile in H. destruct fs as [fs' |]; [| discriminate].
    destruct (String.eqb b "" || String.eqb k ""); [discriminate |].
    inversion H; subst f; cbn. repeat split.
    intros rest. apply CleanPrefix_no_leading_separator.
  - split; [apply CleanPrefix_strips |].
    split; [apply CleanPrefix_fixes |].
    split; [exact Exists_keeps_identity |].
    split; [exact Read_keeps_identity |].
    split; [exact Seek_keeps_identity |].
    split; [exact Write_keeps_identity |].
    split; [exact Close_keeps_identity | exact Delete_keeps_identity].
Qed.

End IdentityFacts.

Lemma newFile_validates_and_identity_stays_witness :
  key (self fresh) = CleanPrefix "//a/b/report.txt"
  /\ exists e, newFile (Some (fileSystem (self fresh))) "docs" "" = Err e.
Proof.
  split.
  - destruct (newFile_validates_and_identity_stays os_ok uri
                (Some (fileSystem (self fresh))) "docs" "//a/b/report.txt")
      as (_ & Hok & _).
    destruct (Hok (self fresh) eq_refl) as (_ & _ & Hk & _). exact Hk.
  - destruct (newFile_validates_and_identity_stays os_ok uri
                (Some (fileSystem (self fresh))) "docs" "") as ([_ H] & _).
    apply H. right. right. reflexivity.
Defined.

(** ** Move *)

Section MoveFacts.

Variable os : OS.
Variable Scheme : string.
Variable GetFileURI : File -> string.
Variable TouchCopy : vfs_target -> M (option error).
Variable io_Copy : vfs_target -> M (Z * option error).


Lemma MoveToFile_run (targetFile : vfs_target) (st : St) :
  (MoveToFile os GetFileURI TouchCopy) targetFile st
  = match (CopyToFile os GetFileURI TouchCopy) targetFile st with
    | (Returns None, st1) => (Delete os GetFileURI) st1
    | r => r
    end.
Proof.
  unfold MoveToFile, bind, ret.
  destruct (CopyToFile _ _ _ _ _) as [[[e |] |] st1]; reflexivity.
Qed.

Lemma MoveToLocation_run (location : vfs_Location) (st : St) :
  (MoveToLocation os Scheme GetFileURI io_Copy) location st
  = match (CopyToLocation os Scheme GetFileURI io_Copy) location st with
    | (Returns (newFile, None), st1) =>
        match (Delete os GetFileURI) st1 with
        | (Returns delErr, st2) => (Returns (newFile, delErr), st2)
        | (Panics, st2) => (Panics, st2)
        end
    | (Returns (_, Some e), st1) => (Returns (None, Some e), st1)
    | (Panics, st1) => (Panics, st1)
    end.
Proof.
  unfold MoveToLocation, bind, ret.
  destruct (CopyToLocation _ _ _ _ _ _) as [[[nf [e |]] |] st1];
    reflexivity.
Qed.

(** The native copy to a File of this package is one CopyObject request; the
    receiver is not touched. *)
Lemma CopyToFile_native (tf : File) (st : St) :
  (CopyToFile os GetFileURI TouchCopy) (TargetS3 tf) st
  = (Returns (copy_answer os st (bucket tf) (key tf)),
     {| self := self st;
        log := log st ++ [copy_event os st (bucket tf) (key tf)] |}).
Proof. reflexivity. Qed.

(** Delete only adds to the log, and adds a DeleteObject request only as its
    last call. *)
Lemma Delete_log (st : St) :
  exists new, log (snd ((Delete os GetFileURI) st)) = log st ++ new.
Proof.
  unfold Delete, call, bind, get_self, put_self, get_log, emit, ret.
  cbn [self log fst snd].
  match goal with
  | |- context [Close os GetFileURI ?s] =>
      assert (Hc : exists new, log (snd (Close os GetFileURI s)) = log s ++ new);
      [| destruct Hc as [new Hc];
         destruct (Close os GetFileURI s) as [[[e |] |] st'];
         cbn [self log fst snd] in Hc |- *]
  end.
  - match goal with |- context [Close os GetFileURI ?s] => set (s0 := s) end.
    destruct (remove_fails os s0) eqn:Hrf.
    + unfold remove_fails in Hrf.
      destruct (tempFile (self s0)) as [tf |] eqn:Ht; [| discriminate].
      destruct (os_Remove os (log s0) (tf_name tf)) as [e |] eqn:Hr;
        [| discriminate].
      rewrite (Close_at_failed_removal os GetFileURI s0 tf e Ht Hr)
        by (destruct (os_IsNotExist e); [discriminate | reflexivity]).
      cbn. eauto.
    + rewrite (Close_past_mirror os GetFileURI s0 Hrf).
      assert (Hm : exists new, log (mirror_released s0) = log s0 ++ new).
      { unfold mirror_released. destruct (tempFile (self s0)); cbn; eauto.
        exists []. now rewrite app_nil_r. }
      destruct Hm as [new0 Hm].
      assert (Hk : exists new,
                 log (snd (Close_commit GetFileURI NewMutliErr (mirror_released s0)))
                 = log (mirror_released s0) ++ new).
      { destruct (writeBuffer (self (mirror_released s0))) as [body |] eqn:Hb.
        - destruct (upload_answer (mirror_released s0) body) as [| e n] eqn:Hu.
          + rewrite (Close_commit_done GetFileURI NewMutliErr _ body Hb Hu).
            destruct (Close_wait_log GetFileURI NewMutliErr
                        {| self := self (mirror_released s0);
                           log := log (mirror_released s0)
                                  ++ [upload_event (mirror_released s0) body] |})
              as [rest Hl].
            rewrite Hl. cbn [log]. rewrite <- app_assoc. eauto.
          + rewrite (Close_commit_failed GetFileURI NewMutliErr _ body e n Hb Hu).
            cbn. eauto.
        - rewrite (Close_commit_no_buffer GetFileURI NewMutliErr _ Hb).
          destruct (Close_wait_log GetFileURI NewMutliErr (mirror_released s0))
            as [rest Hl].
          rewrite Hl. eauto. }
      destruct Hk as [new1 Hk].
      destruct (Close_commit GetFileURI NewMutliErr (mirror_released s0))
        as [[r errs1] st1].
      destruct (run_deferred_spec os (tempFile (self s0)) errs1 st1)
        as (_ & (new2 & Hd & _) & _).
      destruct (run_deferred os (tempFile (self s0)) errs1 st1) as [errs2 st2].
      cbn [fst snd] in Hk, Hd |- *.
      exists (new0 ++ new1 ++ new2).
      destruct r; cbn [snd]; rewrite Hd, Hk, Hm, <- !app_assoc; reflexivity.
  - exists new. exact Hc.
  - exists (new ++ [EDeleteObject (bucket (self st')) (key (self st'))]).
    rewrite Hc, <- app_assoc. reflexivity.
  - exists new. exact Hc.
Qed.

Lemma CopyToLocation_native_failed (location : vfs_Location) (st : St) (e : error) :
  String.eqb (loc_Scheme location) Scheme = true ->
  copy_answer os st (loc_Volume location)
              (path_Join os (loc_Path location) (Name os (self st))) = Some e ->
  CopyToLocation os Scheme GetFileURI io_Copy location st
  = (Returns (None, Some e),
     {| self := self st;
        log := log st ++ [copy_event os st (loc_Volume location)
                            (path_Join os (loc_Path location) (Name os (self st)))] |}).
Proof.
  intros Hs Hc. unfold CopyToLocation. rewrite Hs.
  unfold copyWithinS3ToLocation, call, bind, get_self, get_log, emit, ret.
  cbn [self log fst snd]. unfold copy_answer in Hc. rewrite Hc. reflexivity.
Qed.

(** C6: a Move copies first.  If the copy returns an error, the Move returns
    that error alone (MoveToLocation with no destination handle) and does
    nothing more: the state, log included, is the one the copy left, so no
    delete of the source is issued; in the native path the log has gained the
    CopyObject request and nothing else.  The same holds if the copy does not
    return.  If the copy returns no error, Delete runs on the state the copy
    left, and the Move returns what Delete returns: MoveToLocation returns
    the destination handle of the copy together with the delete error. *)
Theorem Move_deletes_only_after_copy (targetFile : vfs_target)
    (location : vfs_Location) (st : St) :
  (forall e st1,
      CopyToFile os GetFileURI TouchCopy targetFile st = (Returns (Some e), st1) ->
      MoveToFile os GetFileURI TouchCopy targetFile st = (Returns (Some e), st1))
  /\ (forall nf e st1,
        CopyToLocation os Scheme GetFileURI io_Copy location st
        = (Returns (nf, Some e), st1) ->
        MoveToLocation os Scheme GetFileURI io_Copy location st
        = (Returns (None, Some e), st1))
  /\ (fst (CopyToFile os GetFileURI TouchCopy targetFile st) <> Returns None ->
      MoveToFile os GetFileURI TouchCopy targetFile st
      = CopyToFile os GetFileURI TouchCopy targetFile st)
  /\ ((forall nf, fst (CopyToLocation os Scheme GetFileURI io_Copy location st)
                  <> Returns (nf, None)) ->
      snd (MoveToLocation os Scheme GetFileURI io_Copy location st)
      = snd (CopyToLocation os Scheme GetFileURI io_Copy location st))
  /\ (forall st1,
        CopyToFile os GetFileURI TouchCopy targetFile st = (Returns None, st1) ->
        MoveToFile os GetFileURI TouchCopy targetFile st
        = Delete os GetFileURI st1)
  /\ (forall nf st1 delErr st2,
        CopyToLocation os Scheme GetFileURI io_Copy location st
        = (Returns (nf, None), st1) ->
        Delete os GetFileURI st1 = (Returns delErr, st2) ->
        MoveToLocation os Scheme GetFileURI io_Copy location st
        = (Returns (nf, delErr), st2))
  /\ (forall tf e,
        copy_answer os st (bucket tf) (key tf) = Some e ->
        MoveToFile os GetFileURI TouchCopy (TargetS3 tf) st
        = (Returns (Some e),
           {| self := self st;
              log := log st ++ [copy_event os st (bucket tf) (key tf)] |}))
  /\ (forall e,
        String.eqb (loc_Scheme location) Scheme = true ->
        copy_answer os st (loc_Volume location)
                    (path_Join os (loc_Path location) (Name os (self st)))
        = Some e ->
        MoveToLocation os Scheme GetFileURI io_Copy location st
        = (Returns (None, Some e),
           {| self := self st;
              log := log st
                     ++ [copy_event os st (loc_Volume location)
                           (path_Join os (loc_Path location)
                                      (Name os (self st)))] |})).
Proof.
  split; [intros e st1 H; rewrite MoveToFile_run, H; reflexivity |].
  split; [intros nf e st1 H; rewrite MoveToLocation_run, H; reflexivity |].
  split.
  { intros H. rewrite MoveToFile_run.
    destruct (CopyToFile os GetFileURI TouchCopy targetFile st)
      as [[[e |] |] st1]; cbn in H; congruence. }
  split.
  { intros H. rewrite MoveToLocation_run.
    destruct (CopyToLocation os Scheme GetFileURI io_Copy location st)
      as [[[nf [e |]] |] st1]; cbn in H |- *; try reflexivity.
    exfalso. exact (H nf eq_refl). }
  split; [intros st1 H; rewrite MoveToFile_run, H; reflexivity |].
  split.
  { intros nf st1 delErr st2 H Hd. rewrite MoveToLocation_run, H, Hd.
    reflexivity. }
  split.
  { intros tf e H. rewrite MoveToFile_run, CopyToFile_native, H. reflexivity. }
  intros e Hs Hc. rewrite MoveToLocation_run.
  rewrite (CopyToLocation_native_failed location st e Hs Hc). reflexivity.
Qed.

End MoveFacts.

Lemma Move_deletes_only_after_copy_witness :
  MoveToLocation os_ok s3_scheme uri io_copy_nothing
                 (archive (client_copy (Some slow_down) None)) failing_copy
  = (Returns (None, Some slow_down),
     {| self := self failing_copy;
        log := [ECopyObject "archive" "2024/report.txt" "docs/a/b/report.txt"] |}).
Proof.
  destruct (Move_deletes_only_after_copy os_ok s3_scheme uri copy_nothing
              io_copy_nothing (TargetS3 (self failing_copy))
              (archive (client_copy (Some slow_down) None)) failing_copy)
    as (_ & _ & _ & _ & _ & _ & _ & H).
  apply (H slow_down); reflexivity.
Defined.

(** A move whose copy succeeds and whose delete fails, run: the destination
    handle and the delete error are both returned, and the log has the copy,
    the poll of Close and the delete. *)
Example MoveToLocation_half_done :
  (exists f,
      fst (MoveToLocation os_ok s3_scheme uri io_copy_nothing
             (archive (client_copy None (Some slow_down))) failing_delete)
      = Returns (Some (TargetS3 f), Some slow_down)
      /\ bucket f = "archive" /\ key f = "2024/report.txt")
  /\ log (snd (MoveToLocation os_ok s3_scheme uri io_copy_nothing
                 (archive (client_copy None (Some slow_down))) failing_delete))
     = [ECopyObject "archive" "2024/report.txt" "docs/a/b/report.txt";
        head_event; EDeleteObject "docs" "a/b/report.txt"].
Proof. vm_compute. split; [eexists; repeat split | reflexivity]. Qed.

(** ** The commit of what was written *)

Section CommitFacts.

Variable os : OS.
Variable GetFileURI : File -> string.

(** Without a mirror, the first call of a Close that has a buffer is the
    upload of the content of the buffer. *)
Lemma Close_uploads_the_buffer (st : St) (body : list Byte.byte) :
  tempFile (self st) = None ->
  writeBuffer (self st) = Some body ->
  exists rest,
    log (snd (Close os GetFileURI st)) = log st ++ upload_event st body :: rest.
Proof.
  intros Ht Hb.
  rewrite Close_past_mirror by (unfold remove_fails; now rewrite Ht).
  unfold mirror_released. rewrite Ht. cbn [run_deferred].
  destruct (upload_answer st body) as [| e n] eqn:Hu.
  - rewrite (Close_commit_done GetFileURI NewMutliErr st body Hb Hu).
    match goal with
    | |- context [Close_wait GetFileURI ?errs ?s] =>
        destruct (Close_wait_log GetFileURI errs s) as [rest Hl];
        destruct (Close_wait GetFileURI errs s) as [[r errs1] st1]
    end.
    cbn [fst snd self log] in Hl |- *.
    eexists. destruct r; cbn [snd]; rewrite Hl, <- app_assoc; reflexivity.
  - rewrite (Close_commit_failed GetFileURI NewMutliErr st body e n Hb Hu).
    exists []. reflexivity.
Qed.

(** What a session of writes on a fresh File has put in the buffer is what
    Close uploads, in one request. *)
Lemma Close_commits_the_writes (st : St) (d : list Byte.byte)
    (l : list (list Byte.byte)) :
  tempFile (self st) = None ->
  writeBuffer (self st) = None ->
  exists rest,
    log (snd (Close os GetFileURI (run_writes (d :: l) st)))
    = log st ++ EUpload (bucket (self st)) (key (self st)) sseType
                        (concat (d :: l)) :: rest.
Proof.
  intros Ht Hb.
  destruct (Close_uploads_the_buffer (run_writes (d :: l) st) (concat (d :: l)))
    as [rest Hl].
  - rewrite run_writes_self. exact Ht.
  - rewrite run_writes_self. unfold buffered. rewrite Hb. reflexivity.
  - exists rest. rewrite Hl, run_writes_log. unfold upload_event.
    rewrite run_writes_self. reflexivity.
Qed.

End CommitFacts.

(** * Further properties *)

(** ** The calls of the poller *)

Lemma forallb_is_poll_app (a b : trace) :
  forallb is_poll a = true -> forallb is_poll b = true ->
  forallb is_poll (a ++ b) = true.
Proof. intros Ha Hb. rewrite forallb_app, Ha, Hb. reflexivity. Qed.

Lemma Exists_polls_only : polls_only Exists.
Proof.
  intros st. rewrite Exists_run. cbn. split; [reflexivity |].
  eexists. split; reflexivity.
Qed.

Lemma wait_loop_polls_only (file : vfs_File) (retries retryCount : Z) :
  polls_only (vf_Exists file) -> polls_only (wait_loop file retries retryCount).
Proof.
  intros Hq st.
  funelim (wait_loop file retries retryCount st); try rewrite <- Heqcall.
  - cbn. split; [reflexivity | exists []; now rewrite app_nil_r].
  - destruct (Hq st) as [Hs Hl]. rewrite Heq in Hs, Hl. exact (conj Hs Hl).
  - destruct (Hq st) as [Hs Hl]. rewrite Heq in Hs, Hl. exact (conj Hs Hl).
  - destruct (Hq st) as [Hs (new & Hl & Hp)]. rewrite Heq in Hs, Hl.
    cbn in Hs, Hl.
    match goal with
    | IH : polls_only _ -> _ |- _ => destruct (IH Hq) as [Is (new' & Il & Ip)]
    end.
    cbn in Is, Il |- *. split; [congruence |].
    exists (new ++ ESleep 1 :: new'). split.
    + rewrite Il, Hl, <- !app_assoc. reflexivity.
    + apply forallb_is_poll_app; [exact Hp | exact Ip].
  - destruct (Hq st) as [Hs Hl]. rewrite Heq in Hs, Hl. exact (conj Hs Hl).
Qed.

Lemma waitUntilFileExists_polls_only (file : vfs_File) (retries : Z) :
  polls_only (vf_Exists file) -> polls_only (waitUntilFileExists file retries).
Proof.
  intros Hq st. unfold waitUntilFileExists.
  destruct (vf_isMock file);
    [cbn; split; [reflexivity | exists []; now rewrite app_nil_r] |].
  destruct (int_eqb retries (-1));
    [cbn; split; [reflexivity | exists []; now rewrite app_nil_r] |].
  apply wait_loop_polls_only, Hq.
Qed.

(** The loop on a File, counted: with [n] iterations left it asks for the
    metadata at most [n] times and sleeps at most [n] times. *)
Lemma wait_loop_of_File_counts (uri : File -> string) (f : File) (retries : Z)
    (n : nat) :
  forall (retryCount : Z) (st : St),
    0 <= retryCount -> retries < 2 ^ 63 ->
    retries - retryCount = Z.of_nat n ->
    exists new,
      log (snd (wait_loop (as_vfs_File uri f) retries retryCount st))
      = log st ++ new
      /\ (count is_head new <= n)%nat
      /\ (count is_sleep new <= n)%nat.
Proof.
  induction n as [| n IH]; intros retryCount st H0 Hr Hn;
    rewrite wait_loop_step.
  - replace retryCount with retries by lia.
    unfold int_eqb. rewrite Z.eqb_refl. cbn.
    exists []. rewrite app_nil_r. cbn. repeat split; lia.
  - destruct (int_eqb retryCount retries);
      [cbn; exists []; rewrite app_nil_r; cbn; repeat split; lia |].
    cbn [vf_Exists as_vfs_File]. rewrite Exists_run.
    assert (Hone : forall o : outcome (option error),
               exists new,
                 log (snd (o, head_logged st)) = log st ++ new
                 /\ (count is_head new <= S n)%nat
                 /\ (count is_sleep new <= S n)%nat).
    { intros o. eexists. split; [reflexivity |]. cbn. split; lia. }
    destruct (head_answer st) as [h | e]; [apply Hone |].
    destruct (awserr_Code e); [| apply Hone].
    destruct (not_found_class e); [| apply Hone].
    assert (Hw : int_add retryCount 1 = retryCount + 1).
    { unfold int_add, int_wrap. rewrite Z.mod_small; lia. }
    rewrite Hw.
    match goal with
    | |- context [wait_loop ?file ?r ?c ?s] =>
        destruct (IH c s) as (new & Hl & Hh & Hs); try lia
    end.
    rewrite Hl. cbn [run_call snd log head_logged self].
    exists (EHeadObject (bucket (self st)) (key (self st)) :: ESleep 1 :: new).
    split; [rewrite <- !app_assoc; reflexivity |].
    unfold count in *. cbn. split; lia.
Qed.

(** X1: a poll of a File with a budget [retries] that is not negative leaves
    the File as it is and makes no call but metadata queries and sleeps of
    one second: at most [retries] queries and at most [retries] sleeps. *)
Theorem poll_of_File_is_bounded (uri : File -> string) (f : File)
    (retries : Z) (st : St) :
  0 <= retries < 2 ^ 63 ->
  self (snd (waitUntilFileExists (as_vfs_File uri f) retries st)) = self st
  /\ exists new,
      log (snd (waitUntilFileExists (as_vfs_File uri f) retries st))
      = log st ++ new
      /\ forallb is_poll new = true
      /\ (count is_head new <= Z.to_nat retries)%nat
      /\ (count is_sleep new <= Z.to_nat retries)%nat.
Proof.
  intros Hr.
  destruct (waitUntilFileExists_polls_only (as_vfs_File uri f) retries
              Exists_polls_only st) as [Hs (new & Hl & Hp)].
  split; [exact Hs |]. exists new. split; [exact Hl |]. split; [exact Hp |].
  revert Hl. unfold waitUntilFileExists. cbn [vf_isMock as_vfs_File].
  replace (int_eqb retries (-1)) with false.
  2:{ symmetry. apply Z.eqb_neq. unfold int_wrap.
      rewrite (Z.mod_small (retries + 2 ^ 63)) by lia.
      change ((-1 + 2 ^ 63) mod 2 ^ 64) with (2 ^ 63 - 1). lia. }
  destruct (wait_loop_of_File_counts uri f retries (Z.to_nat retries) 0 st)
    as (new' & Hl' & Hh & Hsl); try lia.
  rewrite Hl'. intros E. apply app_inv_head in E. subst new'. split; assumption.
Qed.

Lemma poll_of_File_is_bounded_witness :
  self (snd (waitUntilFileExists (as_vfs_File uri (self absent_thrice)) 2
                                 absent_thrice))
  = self absent_thrice.
Proof.
  apply (poll_of_File_is_bounded uri (self absent_thrice) 2 absent_thrice).
  split; [discriminate | reflexivity].
Defined.

Lemma timeout_is_not_poll_error (file : vfs_File) (retries : Z) :
  Returns (Some poll_error) <> Returns (Some (timeout_error file retries)).
Proof. unfold poll_error, timeout_error. cbn. intros H. inversion H. Qed.

(** The loop on a File that ends with the time-out has used all the
    iterations left: one metadata query and one sleep for each, a sleep
    being the last event. *)
Lemma wait_loop_of_File_times_out (uri : File -> string) (f : File)
    (retries : Z) (n : nat) :
  forall (retryCount : Z) (st : St),
    0 <= retryCount -> retries < 2 ^ 63 ->
    retries - retryCount = Z.of_nat n ->
    fst (wait_loop (as_vfs_File uri f) retries retryCount st)
    = Returns (Some (timeout_error (as_vfs_File uri f) retries)) ->
    exists new,
      log (snd (wait_loop (as_vfs_File uri f) retries retryCount st))
      = log st ++ new
      /\ count is_head new = n /\ count is_sleep new = n
      /\ (n = 0%nat -> new = [])
      /\ (n <> 0%nat -> exists before, new = before ++ [ESleep 1]).
Proof.
  induction n as [| n IH]; intros retryCount st H0 Hr Hn;
    rewrite wait_loop_step.
  - replace retryCount with retries by lia.
    unfold int_eqb. rewrite Z.eqb_refl. cbn. intros _.
    exists []. rewrite app_nil_r. repeat split. intros H. now elim H.
  - replace (int_eqb retryCount retries) with false.
    2:{ symmetry. apply Z.eqb_neq. unfold int_wrap.
        assert (Hw : forall z, - 2 ^ 63 <= z < 2 ^ 63 ->
                               (z + 2 ^ 63) mod 2 ^ 64 = z + 2 ^ 63)
          by (intros z Hz; apply Z.mod_small; lia).
        rewrite !Hw by lia. lia. }
    cbn [vf_Exists as_vfs_File]. rewrite Exists_run.
    destruct (head_answer st) as [h | e]; [discriminate |].
    destruct (awserr_Code e); [| discriminate].
    destruct (not_found_class e);
      [| intros H; exfalso; cbn [fst] in H;
         exact (timeout_is_not_poll_error _ _ H)].
    assert (Hw : int_add retryCount 1 = retryCount + 1).
    { unfold int_add, int_wrap. rewrite Z.mod_small; lia. }
    rewrite Hw. intros Ht.
    match goal with
    | |- context [wait_loop ?file ?r ?c ?s] =>
        destruct (IH c s) as (new & Hl & Hh & Hs & Hz & Hnz);
          try lia; try exact Ht
    end.
    rewrite Hl. cbn [run_call snd log head_logged self].
    exists (EHeadObject (bucket (self st)) (key (self st)) :: ESleep 1 :: new).
    split; [rewrite <- !app_assoc; reflexivity |].
    split; [unfold count in *; cbn; lia |].
    split; [unfold count in *; cbn; lia |].
    split; [discriminate |]. intros _.
    destruct n as [| n].
    + rewrite (Hz eq_refl).
      exists [EHeadObject (bucket (self st)) (key (self st))]. reflexivity.
    + destruct Hnz as [before Hb]; [discriminate |]. rewrite Hb.
      exists (EHeadObject (bucket (self st)) (key (self st)) :: ESleep 1 :: before).
      reflexivity.
Qed.

(** X2: when the poll of a File ends with the time-out error, it has asked
    for the metadata exactly [retries] times and slept exactly [retries]
    times, and its last call is a sleep that no check follows.  With a
    budget of 0 it returns the time-out error at once, without looking. *)
Theorem poll_times_out_after_the_budget (uri : File -> string) (f : File)
    (retries : Z) (st : St) :
  0 <= retries < 2 ^ 63 ->
  (fst (waitUntilFileExists (as_vfs_File uri f) retries st)
   = Returns (Some (timeout_error (as_vfs_File uri f) retries)) ->
   exists new,
     log (snd (waitUntilFileExists (as_vfs_File uri f) retries st))
     = log st ++ new
     /\ count is_head new = Z.to_nat retries
     /\ count is_sleep new = Z.to_nat retries
     /\ (retries <> 0 -> exists before, new = before ++ [ESleep 1]))
  /\ waitUntilFileExists (as_vfs_File uri f) 0 st
     = (Returns (Some (timeout_error (as_vfs_File uri f) 0)), st).
Proof.
  intros Hr. split; [| reflexivity].
  unfold waitUntilFileExists. cbn [vf_isMock as_vfs_File].
  replace (int_eqb retries (-1)) with false.
  2:{ symmetry. apply Z.eqb_neq. unfold int_wrap.
      rewrite (Z.mod_small (retries + 2 ^ 63)) by lia.
      change ((-1 + 2 ^ 63) mod 2 ^ 64) with (2 ^ 63 - 1). lia. }
  intros Ht.
  destruct (wait_loop_of_File_times_out uri f retries (Z.to_nat retries) 0 st)
    as (new & Hl & Hh & Hs & _ & Hnz); try lia; try exact Ht.
  exists new. repeat split; try assumption.
  intros Hne. apply Hnz. lia.
Qed.

Lemma poll_times_out_after_the_budget_witness :
  waitUntilFileExists (as_vfs_File uri (self fresh)) 0 fresh
  = (Returns (Some (timeout_error (as_vfs_File uri (self fresh)) 0)), fresh).
Proof.
  apply (poll_times_out_after_the_budget uri (self fresh) 0 fresh).
  split; [discriminate | reflexivity].
Defined.

(** The loop returns nil only from a check that found the file. *)
Lemma wait_loop_found (file : vfs_File) (retries retryCount : Z) (st st' : St) :
  wait_loop file retries retryCount st = (Returns None, st') ->
  exists st0, vf_Exists file st0 = (Returns (true, None), st').
Proof.
  revert st'.
  funelim (wait_loop file retries retryCount st); intros st';
    try rewrite <- Heqcall; try discriminate.
  - intros Hret. inversion Hret; subst. eauto.
  - intros Hret.
    match goal with
    | IH : forall _, _ = _ -> _ |- _ => exact (IH _ Hret)
    end.
Qed.

(** X3: for a file that is not the in-memory mock and a budget that is not
    -1, the poller returns nil only if a call of Exists has just returned
    [(true, nil)]: it ends in the state that call left.  On a File this
    means that the last call is a metadata query the client answered with
    success. *)
Theorem poll_succeeds_only_when_found (file : vfs_File) (retries : Z)
    (st st' : St) :
  vf_isMock file = false ->
  int_eqb retries (-1) = false ->
  waitUntilFileExists file retries st = (Returns None, st') ->
  (exists st0, vf_Exists file st0 = (Returns (true, None), st'))
  /\ (vf_Exists file = Exists ->
      exists st0 h, head_answer st0 = Ok h /\ st' = head_logged st0).
Proof.
  intros Hm H1. unfold waitUntilFileExists. rewrite Hm, H1. intros H.
  destruct (wait_loop_found file retries 0 st st' H) as [st0 H0].
  split; [eauto |]. intros He. rewrite He, Exists_run in H0.
  exists st0. destruct (head_answer st0) as [h | e].
  - exists h. split; [reflexivity | congruence].
  - destruct (awserr_Code e); [destruct (not_found_class e) |]; discriminate.
Qed.

Lemma poll_succeeds_only_when_found_witness :
  exists st0, vf_Exists (as_vfs_File uri (self fresh)) st0
              = (Returns (true, None), head_logged fresh).
Proof.
  apply (poll_succeeds_only_when_found (as_vfs_File uri (self fresh)) 5
           fresh (head_logged fresh)); reflexivity.
Defined.

(** ** The calls of Close *)

Section CloseCalls.

Variable os : OS.
Variable GetFileURI : File -> string.

Lemma polls_count_nothing (p : event -> bool) (polls : trace) :
  (forall e, is_poll e = true -> p e = false) ->
  forallb is_poll polls = true -> count p polls = 0%nat.
Proof.
  intros Hp. unfold count. induction polls as [| e polls IH]; [reflexivity |].
  cbn. intros H. apply andb_true_iff in H. destruct H as [He Hr].
  rewrite (Hp e He). exact (IH Hr).
Qed.

Lemma Close_wait_polls (errs : MultiErr) (st : St) :
  exists polls,
    log (snd (Close_wait GetFileURI errs st)) = log st ++ polls
    /\ forallb is_poll polls = true.
Proof.
  unfold Close_wait. cbn [self log].
  match goal with
  | |- context [waitUntilFileExists (as_vfs_File GetFileURI ?f) ?r ?s] =>
      destruct (waitUntilFileExists_polls_only (as_vfs_File GetFileURI f) r
                  Exists_polls_only s) as [_ Hl];
      destruct (waitUntilFileExists (as_vfs_File GetFileURI f) r s)
        as [[[e |] |] st2]
  end; exact Hl.
Qed.

Lemma Close_commit_calls (errs : MultiErr) (st : St) :
  exists polls,
    forallb is_poll polls = true
    /\ log (snd (Close_commit GetFileURI errs st))
       = log st
         ++ match writeBuffer (self st) with
            | Some body => [upload_event st body]
            | None => []
            end
         ++ polls.
Proof.
  destruct (writeBuffer (self st)) as [body |] eqn:Hb.
  - destruct (upload_answer st body) as [| e n] eqn:Hu.
    + rewrite (Close_commit_done GetFileURI errs st body Hb Hu).
      match goal with
      | |- context [Close_wait GetFileURI ?er ?s] =>
          destruct (Close_wait_polls er s) as (polls & Hl & Hp)
      end.
      exists polls. split; [exact Hp |]. rewrite Hl. cbn [log].
      rewrite <- app_assoc. reflexivity.
    + rewrite (Close_commit_failed GetFileURI errs st body e n Hb Hu).
      exists []. split; reflexivity.
  - rewrite (Close_commit_no_buffer GetFileURI errs st Hb).
    destruct (Close_wait_polls errs st) as (polls & Hl & Hp).
    exists polls. split; [exact Hp | exact Hl].
Qed.

Lemma run_deferred_log (deferred : option OsFile) (errs : MultiErr) (st : St) :
  log (snd (run_deferred os deferred errs st))
  = log st ++ match deferred with
              | Some tf => [EFileClose (tf_name tf)]
              | None => []
              end.
Proof.
  destruct deferred as [tf |]; cbn; [| now rewrite app_nil_r].
  unfold DeferFunc, tempFile_Close, run_call. cbn [self log].
  destruct (os_FileClose os (log st) (tf_name tf)); reflexivity.
Qed.

Lemma remove_fails_inv (st : St) :
  remove_fails os st = true ->
  exists tf e, tempFile (self st) = Some tf
               /\ os_Remove os (log st) (tf_name tf) = Some e
               /\ os_IsNotExist e = false.
Proof.
  unfold remove_fails.
  destruct (tempFile (self st)) as [tf |] eqn:Ht; [| discriminate].
  destruct (os_Remove os (log st) (tf_name tf)) as [e |] eqn:Hr; [| discriminate].
  intros H. exists tf, e. split; [reflexivity | split; [exact Hr |]].
  destruct (os_IsNotExist e); [discriminate | reflexivity].
Qed.

Lemma Close_calls (st : St) :
  exists polls,
    forallb is_poll polls = true
    /\ log (snd (Close os GetFileURI st))
       = log st ++ removal_event st ++ commit_event os st ++ polls
         ++ close_event st.
Proof.
  unfold removal_event, close_event, commit_event.
  destruct (remove_fails os st) eqn:Hrf.
  - destruct (remove_fails_inv st Hrf) as (tf & e & Ht & Hr & Hn).
    rewrite (Close_at_failed_removal os GetFileURI st tf e Ht Hr Hn), Ht.
    exists []. split; reflexivity.
  - rewrite (Close_past_mirror os GetFileURI st Hrf).
    destruct (Close_commit_calls NewMutliErr (mirror_released st))
      as (polls & Hp & Hl).
    destruct (Close_commit GetFileURI NewMutliErr (mirror_released st))
      as [[r errs1] st1].
    pose proof (run_deferred_log (tempFile (self st)) errs1 st1) as Hd.
    destruct (run_deferred os (tempFile (self st)) errs1 st1) as [errs2 st2].
    cbn [fst snd] in Hl, Hd |- *.
    exists polls. split; [exact Hp |].
    assert (E : log st2
                = log st1 ++ match tempFile (self st) with
                             | Some tf => [EFileClose (tf_name tf)]
                             | None => []
                             end) by exact Hd.
    destruct r; cbn [snd]; rewrite E, Hl, mirror_released_buffer;
      unfold mirror_released, upload_event;
      destruct (tempFile (self st)) as [tf |];
      destruct (writeBuffer (self st)); cbn [self log bucket key set_tempFile];
      rewrite <- ?app_assoc; cbn [app]; rewrite ?app_nil_r; reflexivity.
Qed.

(** X4: the calls of Close, in order: the removal of the temporary file, if
    the File has a mirror; the upload of the content of the buffer, if the
    File has a buffer and the removal has not failed; metadata queries and
    sleeps of the poll; the close of the temporary file, if the File has a
    mirror.  So Close never retrieves, copies or deletes an object, uploads
    at most once, and closes the temporary file of a mirror whatever
    happens. *)
Theorem Close_makes_these_calls (st : St) :
  exists polls,
    forallb is_poll polls = true
    /\ log (snd (Close os GetFileURI st))
       = log st ++ removal_event st ++ commit_event os st ++ polls
         ++ close_event st
    /\ (length (commit_event os st) <= 1)%nat
    /\ (writeBuffer (self st) = None -> commit_event os st = []).
Proof.
  destruct (Close_calls st) as (polls & Hp & Hl).
  exists polls. split; [exact Hp |]. split; [exact Hl |].
  unfold commit_event.
  destruct (remove_fails os st); destruct (writeBuffer (self st));
    cbn; split; try lia; try reflexivity; discriminate.
Qed.

Lemma mirror_released_mirror (st : St) :
  tempFile (self (mirror_released st)) = None.
Proof.
  unfold mirror_released. destruct (tempFile (self st)) eqn:Ht; [reflexivity | exact Ht].
Qed.

(** Where the result of Close comes from, once the removal has not failed:
    from the upload, or else from the close of the temporary file. *)
Lemma Close_result_past_mirror (st : St) :
  remove_fails os st = false ->
  match writeBuffer (self st) with
  | Some body =>
      match upload_answer (mirror_released st) body with
      | UploadErr e n => fst (Close os GetFileURI st) = Returns (Some e)
      | UploadOk =>
          tempFile (self (snd (Close os GetFileURI st))) = None
          /\ writeBuffer (self (snd (Close os GetFileURI st))) = None
          /\ (fst (Close os GetFileURI st) = Panics
              \/ exists t, fst (Close os GetFileURI st)
                           = Returns (match tempFile (self st) with
                                      | Some tf => os_FileClose os t (tf_name tf)
                                      | None => None
                                      end))
      end
  | None =>
      tempFile (self (snd (Close os GetFileURI st))) = None
      /\ writeBuffer (self (snd (Close os GetFileURI st))) = None
      /\ (fst (Close os GetFileURI st) = Panics
          \/ exists t, fst (Close os GetFileURI st)
                       = Returns (match tempFile (self st) with
                                  | Some tf => os_FileClose os t (tf_name tf)
                                  | None => None
                                  end))
  end.
Proof.
  intros Hrf. rewrite (Close_past_mirror os GetFileURI st Hrf).
  assert (Hw : forall s,
             tempFile (self s) = None ->
             let '(r, errs1, st1) := Close_wait GetFileURI NewMutliErr s in
             let (errs2, st2) := run_deferred os (tempFile (self st)) errs1 st1 in
             tempFile (self st2) = None /\ writeBuffer (self st2) = None
             /\ (r = Panics
                 \/ exists t,
                     OrNil errs2 = match tempFile (self st) with
                                   | Some tf => os_FileClose os t (tf_name tf)
                                   | None => None
                                   end)).
  { intros s Hs.
    pose proof (Close_wait_errs GetFileURI NewMutliErr s) as He.
    pose proof (Close_wait_self GetFileURI NewMutliErr s) as Hself.
    destruct (Close_wait GetFileURI NewMutliErr s) as [[r errs1] st1].
    cbn [fst snd] in He, Hself. subst errs1.
    destruct (tempFile (self st)) as [tf |]; cbn [run_deferred].
    - unfold DeferFunc, tempFile_Close, run_call. cbn [self log].
      destruct (os_FileClose os (log st1) (tf_name tf)) as [e |] eqn:Hc;
        cbn [fst snd self]; rewrite Hself; cbn;
        (split; [exact Hs | split; [reflexivity |]]);
        right; exists (log st1); rewrite Hc; reflexivity.
    - rewrite Hself. cbn. split; [exact Hs | split; [reflexivity |]].
      right. exists []. reflexivity. }
  destruct (writeBuffer (self st)) as [body |] eqn:Hb.
  - destruct (upload_answer (mirror_released st) body) as [| e n] eqn:Hu.
    + rewrite (Close_commit_done GetFileURI NewMutliErr (mirror_released st) body)
        by (rewrite ?mirror_released_buffer; assumption).
      match goal with
      | |- context [Close_wait GetFileURI NewMutliErr ?s] =>
          specialize (Hw s (mirror_released_mirror st));
          destruct (Close_wait GetFileURI NewMutliErr s) as [[r errs1] st1]
      end.
      destruct (run_deferred os (tempFile (self st)) errs1 st1) as [errs2 st2].
      destruct Hw as (H1 & H2 & H3).
      destruct r; cbn [fst snd]; (split; [exact H1 | split; [exact H2 |]]);
        [| left; reflexivity].
      destruct H3 as [H3 | [t H3]]; [discriminate |].
      right. exists t. rewrite H3. reflexivity.
    + rewrite (Close_commit_failed GetFileURI NewMutliErr (mirror_released st)
                 body e n)
        by (rewrite ?mirror_released_buffer; assumption).
      match goal with
      | |- context [run_deferred os ?d ?errs ?s] =>
          destruct (run_deferred_spec os d errs s) as (_ & _ & more & Hm);
          destruct (run_deferred os d errs s) as [errs2 st2]
      end.
      cbn [fst] in Hm. subst errs2. reflexivity.
  - rewrite (Close_commit_no_buffer GetFileURI NewMutliErr (mirror_released st))
      by (rewrite ?mirror_released_buffer; assumption).
    specialize (Hw (mirror_released st) (mirror_released_mirror st)).
    destruct (Close_wait GetFileURI NewMutliErr (mirror_released st))
      as [[r errs1] st1].
    destruct (run_deferred os (tempFile (self st)) errs1 st1) as [errs2 st2].
    destruct Hw as (H1 & H2 & H3).
    destruct r; cbn [fst snd]; (split; [exact H1 | split; [exact H2 |]]);
      [| left; reflexivity].
    destruct H3 as [H3 | [t H3]]; [discriminate |].
    right. exists t. rewrite H3. reflexivity.
Qed.

Lemma Close_without_error_releases_aux (st : St) :
  fst (Close os GetFileURI st) = Returns None ->
  tempFile (self (snd (Close os GetFileURI st))) = None
  /\ writeBuffer (self (snd (Close os GetFileURI st))) = None.
Proof.
  intros Hnil.
  destruct (remove_fails os st) eqn:Hrf.
  { destruct (remove_fails_inv st Hrf) as (tf & e & Ht & Hr & Hn).
    rewrite (Close_at_failed_removal os GetFileURI st tf e Ht Hr Hn) in Hnil.
    discriminate. }
  pose proof (Close_result_past_mirror st Hrf) as H.
  destruct (writeBuffer (self st)) as [body |].
  - destruct (upload_answer (mirror_released st) body) as [| e n].
    + destruct H as (H1 & H2 & _). split; assumption.
    + rewrite H in Hnil. discriminate.
  - destruct H as (H1 & H2 & _). split; assumption.
Qed.

(** X5: when Close returns no error, the File has neither mirror nor buffer
    afterwards: the temporary file was removed and closed and the buffer, if
    any, was uploaded. *)
Theorem Close_without_error_releases (st : St) :
  fst (Close os GetFileURI st) = Returns None ->
  tempFile (self (snd (Close os GetFileURI st))) = None
  /\ writeBuffer (self (snd (Close os GetFileURI st))) = None
  /\ remove_fails os st = false
  /\ (forall body, writeBuffer (self st) = Some body ->
                   upload_answer (mirror_released st) body = UploadOk).
Proof.
  intros Hnil.
  destruct (remove_fails os st) eqn:Hrf.
  { destruct (remove_fails_inv st Hrf) as (tf & e & Ht & Hr & Hn).
    rewrite (Close_at_failed_removal os GetFileURI st tf e Ht Hr Hn) in Hnil.
    discriminate. }
  pose proof (Close_result_past_mirror st Hrf) as H.
  destruct (writeBuffer (self st)) as [body |].
  - destruct (upload_answer (mirror_released st) body) as [| e n] eqn:Hu.
    + destruct H as (H1 & H2 & _).
      split; [exact H1 | split; [exact H2 | split; [reflexivity |]]].
      intros body0 E. inversion E; subst. exact Hu.
    + rewrite H in Hnil. discriminate.
  - destruct H as (H1 & H2 & _).
    split; [exact H1 | split; [exact H2 | split; [reflexivity |]]].
    intros body Hb. discriminate.
Qed.

(** X6: an error Close returns is the error of the removal of the temporary
    file, the error of the upload of the buffer, or an error of the close of
    the temporary file.  What the poller returns never reaches the caller:
    the time-out of the poll is dropped. *)
Theorem Close_error_comes_from_cleanup (st : St) (e : error) :
  fst (Close os GetFileURI st) = Returns (Some e) ->
  (exists tf, tempFile (self st) = Some tf
              /\ os_Remove os (log st) (tf_name tf) = Some e
              /\ os_IsNotExist e = false)
  \/ (exists body n, writeBuffer (self st) = Some body
                     /\ remove_fails os st = false
                     /\ upload_answer (mirror_released st) body = UploadErr e n)
  \/ (exists tf t, tempFile (self st) = Some tf
                   /\ os_FileClose os t (tf_name tf) = Some e).
Proof.
  intros Herr.
  destruct (remove_fails os st) eqn:Hrf.
  { destruct (remove_fails_inv st Hrf) as (tf & e' & Ht & Hr & Hn).
    rewrite (Close_at_failed_removal os GetFileURI st tf e' Ht Hr Hn) in Herr.
    left. exists tf. inversion Herr; subst. auto. }
  pose proof (Close_result_past_mirror st Hrf) as H.
  assert (Hclose :
            (fst (Close os GetFileURI st) = Panics
             \/ exists t, fst (Close os GetFileURI st)
                          = Returns (match tempFile (self st) with
                                     | Some tf => os_FileClose os t (tf_name tf)
                                     | None => None
                                     end)) ->
            exists tf t, tempFile (self st) = Some tf
                         /\ os_FileClose os t (tf_name tf) = Some e).
  { intros [Hp | [t Ht]]; [congruence |]. rewrite Herr in Ht.
    destruct (tempFile (self st)) as [tf |]; [| discriminate].
    exists tf, t. split; [reflexivity | congruence]. }
  destruct (writeBuffer (self st)) as [body |].
  - destruct (upload_answer (mirror_released st) body) as [| e' n] eqn:Hu.
    + right. right. apply Hclose. apply H.
    + right. left. exists body, n. rewrite Herr in H. inversion H; subst. auto.
  - right. right. apply Hclose. apply H.
Qed.

(** ** Delete *)

Lemma Close_buffer_stays_nil (st : St) :
  writeBuffer (self st) = None ->
  writeBuffer (self (snd (Close os GetFileURI st))) = None.
Proof.
  intros Hb. destruct (remove_fails os st) eqn:Hrf.
  - destruct (remove_fails_inv st Hrf) as (tf & e & Ht & Hr & Hn).
    rewrite (Close_at_failed_removal os GetFileURI st tf e Ht Hr Hn). exact Hb.
  - pose proof (Close_result_past_mirror st Hrf) as H. rewrite Hb in H.
    apply H.
Qed.

(** Delete, from the Close it makes. *)
Lemma Delete_run (st : St) :
  Delete os GetFileURI st
  = match Close os GetFileURI
            {| self := set_writeBuffer (self st) None; log := log st |} with
    | (Returns None, st1) =>
        (Returns (api_DeleteObject (Client (fileSystem (self st1))) (log st1)
                                   (bucket (self st1)) (key (self st1))),
         {| self := self st1;
            log := log st1 ++ [EDeleteObject (bucket (self st1)) (key (self st1))] |})
    | r => r
    end.
Proof.
  unfold Delete, call, bind, get_self, put_self, get_log, emit, ret.
  cbn [self log fst snd].
  destruct (Close os GetFileURI _) as [[[e |] |] st1]; reflexivity.
Qed.

Lemma Delete_calls (st : St) :
  writeBuffer (self (snd (Delete os GetFileURI st))) = None
  /\ exists new,
      log (snd (Delete os GetFileURI st)) = log st ++ new
      /\ count is_upload new = 0%nat
      /\ count is_get new = 0%nat
      /\ (count is_delete new <= 1)%nat.
Proof.
  rewrite Delete_run.
  set (st0 := {| self := set_writeBuffer (self st) None; log := log st |}).
  pose proof (Close_buffer_stays_nil st0 eq_refl) as Hb.
  destruct (Close_calls st0) as (polls & Hp & Hl).
  assert (Hc : commit_event os st0 = []).
  { unfold commit_event. destruct (remove_fails os st0); reflexivity. }
  rewrite Hc in Hl. cbn [app] in Hl.
  assert (Hcount : forall p,
             (forall e, is_poll e = true -> p e = false) ->
             (forall n, p (ERemove n) = false) ->
             (forall n, p (EFileClose n) = false) ->
             count p (removal_event st0 ++ polls ++ close_event st0) = 0%nat).
  { intros p H1 H2 H3. rewrite !count_app, (polls_count_nothing p polls H1 Hp).
    unfold removal_event, close_event, count.
    destruct (tempFile (self st0)); cbn; rewrite ?H2, ?H3; reflexivity. }
  assert (Hu := Hcount is_upload).
  assert (Hg := Hcount is_get).
  assert (Hd := Hcount is_delete).
  assert (Pu : forall e, is_poll e = true -> is_upload e = false)
    by (intros []; cbn; congruence).
  assert (Pg : forall e, is_poll e = true -> is_get e = false)
    by (intros []; cbn; congruence).
  assert (Pd : forall e, is_poll e = true -> is_delete e = false)
    by (intros []; cbn; congruence).
  specialize (Hu Pu (fun _ => eq_refl) (fun _ => eq_refl)).
  specialize (Hg Pg (fun _ => eq_refl) (fun _ => eq_refl)).
  specialize (Hd Pd (fun _ => eq_refl) (fun _ => eq_refl)).
  destruct (Close os GetFileURI st0) as [[[e |] |] st1];
    cbn [fst snd self log] in Hb, Hl |- *; (split; [exact Hb |]).
  - eexists. split; [exact Hl |]. rewrite Hu, Hg, Hd. repeat split; lia.
  - exists ((removal_event st0 ++ polls ++ close_event st0)
            ++ [EDeleteObject (bucket (self st1)) (key (self st1))]).
    split; [rewrite Hl, <- !app_assoc; reflexivity |].
    rewrite !(count_app _ (removal_event st0 ++ polls ++ close_event st0)).
    rewrite Hu, Hg, Hd. cbn. repeat split; lia.
  - eexists. split; [exact Hl |]. rewrite Hu, Hg, Hd. repeat split; lia.
Qed.

(** X7: Delete discards what was written and not yet committed: whatever the
    File holds, Delete uploads nothing and retrieves nothing, issues at most
    one DeleteObject request, and leaves the File without buffer. *)
Theorem Delete_discards_pending_writes (st : St) :
  same_identity (self st) (self (snd (Delete os GetFileURI st)))
  /\ writeBuffer (self (snd (Delete os GetFileURI st))) = None
  /\ exists new,
      log (snd (Delete os GetFileURI st)) = log st ++ new
      /\ count is_upload new = 0%nat
      /\ count is_get new = 0%nat
      /\ (count is_delete new <= 1)%nat.
Proof.
  split.
  - exact (Delete_keeps_identity os GetFileURI st).
  - destruct (Delete_calls st) as (Hb & new & Hl & Hu & Hg & Hd).
    split; [exact Hb |]. exists new. repeat split; assumption.
Qed.

(** X8: when the File has a mirror whose temporary file cannot be removed,
    Delete returns the error of the removal and does not ask for the
    deletion of the object; what was written and not committed is lost all
    the same, and the mirror stays. *)
Theorem Delete_stops_at_failed_removal (st : St) (tf : OsFile) (e : error) :
  tempFile (self st) = Some tf ->
  os_Remove os (log st) (tf_name tf) = Some e ->
  os_IsNotExist e = false ->
  Delete os GetFileURI st
  = (Returns (Some e),
     {| self := set_writeBuffer (self st) None;
        log := log st ++ [ERemove (tf_name tf); EFileClose (tf_name tf)] |}).
Proof.
  intros Ht Hr Hn. rewrite Delete_run.
  rewrite (Close_at_failed_removal os GetFileURI
             {| self := set_writeBuffer (self st) None; log := log st |} tf e)
    by assumption.
  reflexivity.
Qed.

End CloseCalls.

Lemma Close_without_error_releases_witness :
  tempFile (self (snd (Close os_ok uri read_and_written))) = None
  /\ writeBuffer (self (snd (Close os_ok uri read_and_written))) = None
  /\ remove_fails os_ok read_and_written = false
  /\ (forall body, writeBuffer (self read_and_written) = Some body ->
                   upload_answer (mirror_released read_and_written) body = UploadOk).
Proof.
  apply (Close_without_error_releases os_ok uri read_and_written). reflexivity.
Defined.

Lemma Close_error_comes_from_cleanup_witness :
  (exists tf, tempFile (self failing_commit) = Some tf
              /\ os_Remove os_ok (log failing_commit) (tf_name tf) = Some slow_down
              /\ os_IsNotExist slow_down = false)
  \/ (exists body n, writeBuffer (self failing_commit) = Some body
                     /\ remove_fails os_ok failing_commit = false
                     /\ upload_answer (mirror_released failing_commit) body
                        = UploadErr slow_down n)
  \/ (exists tf t, tempFile (self failing_commit) = Some tf
                   /\ os_FileClose os_ok t (tf_name tf) = Some slow_down).
Proof.
  apply (Close_error_comes_from_cleanup os_ok uri failing_commit slow_down).
  reflexivity.
Defined.

Lemma Delete_stops_at_failed_removal_witness :
  Delete os_denied uri read_and_written
  = (Returns (Some access_denied),
     {| self := set_writeBuffer (self read_and_written) None;
        log := log read_and_written
               ++ [ERemove (tf_name mirror); EFileClose (tf_name mirror)] |}).
Proof.
  apply (Delete_stops_at_failed_removal os_denied uri read_and_written mirror
           access_denied); reflexivity.
Defined.

(** ** Reading what was written *)

Lemma last_upload_from (b k : string) (t : trace) (acc : option (list Byte.byte)) :
  fold_left (fun acc e =>
               match e with
               | EUpload b' k' _ body =>
                   if String.eqb b b' && String.eqb k k' then Some body else acc
               | _ => acc
               end) t acc
  = match last_upload b k t with
    | Some body => Some body
    | None => acc
    end.
Proof.
  unfold last_upload. revert acc.
  induction t as [| e t IH]; intros acc; [reflexivity |].
  cbn [fold_left]. rewrite IH. symmetry. rewrite IH.
  destruct (fold_left _ t None); [reflexivity |].
  destruct e; try reflexivity.
  destruct (String.eqb b bucket0 && String.eqb k key0); reflexivity.
Qed.

Lemma last_upload_app (b k : string) (t1 t2 : trace) :
  last_upload b k (t1 ++ t2)
  = match last_upload b k t2 with
    | Some body => Some body
    | None => last_upload b k t1
    end.
Proof.
  unfold last_upload at 1. rewrite fold_left_app, last_upload_from.
  reflexivity.
Qed.

Lemma last_upload_no_upload (b k : string) (t : trace) :
  count is_upload t = 0%nat -> last_upload b k t = None.
Proof.
  unfold count, last_upload. induction t as [| e t IH]; [reflexivity |].
  cbn [fold_left filter]. destruct e; cbn; try discriminate; exact IH.
Qed.

Section ReadBack.

Variable os : OS.
Variable GetFileURI : File -> string.

(** X10: what is written is read back.  On a client that, after a
    successful upload and until the next upload, copy or delete, answers the
    retrieval of the object with the uploaded body: after writes to a File
    without mirror and buffer and a Close that returns no error, a Read
    through a new handle on the same file system, bucket and key that returns
    no error returns the first bytes of the concatenation of what was
    written. *)
Theorem written_bytes_are_read_back (st : St) (d : list Byte.byte)
    (l : list (list Byte.byte)) (f2 : File) (n : nat)
    (got : list Byte.byte) (k : Z) :
  tempFile (self st) = None ->
  writeBuffer (self st) = None ->
  reads_back (Client (fileSystem (self st))) ->
  fst (Close os GetFileURI (run_writes (d :: l) st)) = Returns None ->
  same_identity (self st) f2 ->
  tempFile f2 = None ->
  fst (Read os n (handle f2 (snd (Close os GetFileURI (run_writes (d :: l) st)))))
  = Returns (got, k, None) ->
  got = firstn n (concat (d :: l)) /\ k = Z.of_nat (length got).
Proof.
  intros Ht Hb Hrb Hnil (Hfs & Hbk & Hky) Ht2 Hread.
  set (st1 := run_writes (d :: l) st) in *.
  assert (Hs1 : self st1
                = set_writeBuffer (self st) (Some (buffered (self st) ++ concat (d :: l))))
    by apply run_writes_self.
  assert (Hb1 : writeBuffer (self st1) = Some (concat (d :: l))).
  { rewrite Hs1. unfold buffered. rewrite Hb. reflexivity. }
  assert (Ht1 : tempFile (self st1) = None) by (rewrite Hs1; exact Ht).
  assert (Hrf : remove_fails os st1 = false)
    by (unfold remove_fails; rewrite Ht1; reflexivity).
  assert (Hup : upload_answer st1 (concat (d :: l)) = UploadOk).
  { pose proof (Close_result_past_mirror os GetFileURI st1 Hrf) as H.
    rewrite Hb1 in H. unfold mirror_released in H. rewrite Ht1 in H.
    destruct (upload_answer st1 (concat (d :: l))) as [| e m];
      [reflexivity | congruence]. }
  destruct (Close_calls os GetFileURI st1) as (polls & Hp & Hl).
  unfold removal_event, close_event, commit_event in Hl.
  rewrite Hrf, Ht1, Hb1 in Hl. cbn [app] in Hl. rewrite app_nil_r in Hl.
  set (st2 := snd (Close os GetFileURI st1)) in *.
  destruct (first_Read_reads_from_the_start os (handle f2 st2) n got k Ht2 Hread)
    as (body & Hg & Hgot & Hk).
  unfold get_answer in Hg. cbn [handle self log] in Hg.
  rewrite Hl, <- Hfs, <- Hbk, <- Hky in Hg.
  unfold upload_event, upload_answer in Hg, Hup.
  rewrite Hs1 in Hg, Hup. cbn [bucket key fileSystem set_writeBuffer] in Hg, Hup.
  rewrite <- app_assoc in Hg. cbn [app] in Hg.
  rewrite (Hrb _ _ _ _ _ _ Hup) in Hg.
  - inversion Hg; subst body. split; assumption.
  - rewrite count_app.
    rewrite (polls_count_nothing is_mutation polls);
      [reflexivity | intros []; cbn; congruence | exact Hp].
Qed.

End ReadBack.

Lemma no_mutation_no_upload (t : trace) :
  count is_mutation t = 0%nat -> count is_upload t = 0%nat.
Proof.
  unfold count. induction t as [| e t IH]; [reflexivity |].
  destruct e; cbn; try discriminate; exact IH.
Qed.

Lemma store_client_reads_back : reads_back store_client.
Proof.
  intros t b k sse body rest _ Hrest. cbn.
  replace (t ++ EUpload b k sse body :: rest)
    with ((t ++ [EUpload b k sse body]) ++ rest)
    by (rewrite <- app_assoc; reflexivity).
  rewrite last_upload_app.
  rewrite (last_upload_no_upload b k rest (no_mutation_no_upload rest Hrest)).
  rewrite last_upload_app. unfold last_upload at 1. cbn [fold_left].
  rewrite !String.eqb_refl. reflexivity.
Qed.

Lemma written_bytes_are_read_back_witness :
  fst (Read os_ok 8 (handle (self stored)
                       (snd (Close os_ok uri (run_writes [hello; world] stored)))))
  = Returns (firstn 8 (hello ++ world), 8, None)
  /\ firstn 8 (hello ++ world) = firstn 8 (concat [hello; world])
  /\ 8 = Z.of_nat (length (firstn 8 (hello ++ world))).
Proof.
  split; [reflexivity |].
  apply (written_bytes_are_read_back os_ok uri stored hello [world]
           (self stored) 8 (firstn 8 (hello ++ world)) 8);
    try reflexivity.
  - apply store_client_reads_back.
  - repeat split.
Defined.

(** ** Read and Seek on one mirror *)

Section MirrorCalls.

Variable os : OS.
Variable GetFileURI : File -> string.

Lemma Seek_after_failure (st st' : St) (offset whence : Z) (e : error) :
  checkTempFile os st = (Returns (Some e), st') ->
  Seek os offset whence st = (Returns (0, Some e), st').
Proof. intros H. unfold Seek, bind. rewrite H. reflexivity. Qed.

Lemma Seek_after_materialization (st st' : St) (offset whence : Z) (tf : OsFile) :
  checkTempFile os st = (Returns None, st') ->
  tempFile (self st') = Some tf ->
  Seek os offset whence st = Seek os offset whence st'.
Proof.
  intros H Ht. unfold Seek at 1. unfold bind. rewrite H.
  rewrite (Seek_present os st' tf offset whence Ht).
  unfold get_self, put_self, ret. rewrite Ht.
  destruct (OsFile_Seek tf offset whence). reflexivity.
Qed.

(** After [checkTempFile] the File has a mirror, or [checkTempFile] has
    returned an error. *)
Lemma checkTempFile_outcome (st : St) :
  (exists e st', checkTempFile os st = (Returns (Some e), st'))
  \/ (exists st' tf, checkTempFile os st = (Returns None, st')
                     /\ tempFile (self st') = Some tf).
Proof.
  destruct (tempFile (self st)) as [tf |] eqn:Ht.
  - right. exists st, tf. split; [exact (checkTempFile_present os st tf Ht) | exact Ht].
  - destruct (checkTempFile_absent os st Ht) as [_ Hc].
    destruct (checkTempFile os st) as [[[e |] |] st'] eqn:E; cbn [fst snd] in Hc.
    + left. eauto.
    + right. destruct Hc as (name & body & _ & Hs & _).
      exists st'. eexists. split; [reflexivity |]. rewrite Hs. reflexivity.
    + contradiction.
Qed.

Lemma access_without_error_has_mirror (st : St) :
  (forall n got k,
      fst (Read os n st) = Returns (got, k, None) ->
      exists tf, tempFile (self (snd (Read os n st))) = Some tf)
  /\ (forall offset whence pos,
        fst (Seek os offset whence st) = Returns (pos, None) ->
        exists tf, tempFile (self (snd (Seek os offset whence st))) = Some tf).
Proof.
  split.
  - intros n got k H.
    destruct (checkTempFile_outcome st) as [(e & st' & E) | (st' & tf & E & Ht)].
    + rewrite (Read_after_failure os st st' n e E) in H. discriminate.
    + rewrite (Read_after_materialization os st st' n tf E Ht).
      rewrite (Read_present os st' tf n Ht). cbn. eauto.
  - intros offset whence pos H.
    destruct (checkTempFile_outcome st) as [(e & st' & E) | (st' & tf & E & Ht)].
    + rewrite (Seek_after_failure st st' offset whence e E) in H. discriminate.
    + rewrite (Seek_after_materialization st st' offset whence tf E Ht).
      rewrite (Seek_present os st' tf offset whence Ht). cbn. eauto.
Qed.

(** X11: Read and Seek work on one mirror.  Once a Read or a Seek has
    returned without error, the File has its mirror, and any later session
    of Read and Seek calls makes no call at all: there is at most one
    successful retrieval of the object for all of them. *)
Theorem Read_and_Seek_share_the_mirror (st : St) (l : list access) :
  (forall n got k,
      fst (Read os n st) = Returns (got, k, None) ->
      log (run_accesses os l (snd (Read os n st))) = log (snd (Read os n st)))
  /\ (forall offset whence pos,
        fst (Seek os offset whence st) = Returns (pos, None) ->
        log (run_accesses os l (snd (Seek os offset whence st)))
        = log (snd (Seek os offset whence st))).
Proof.
  destruct (access_without_error_has_mirror st) as [HR HS]. split.
  - intros n got k H. destruct (HR n got k H) as [tf Ht].
    exact (proj1 (run_accesses_present os l _ tf Ht)).
  - intros offset whence pos H. destruct (HS offset whence pos H) as [tf Ht].
    exact (proj1 (run_accesses_present os l _ tf Ht)).
Qed.

(** X12: when the retrieval of the object fails after the temporary file
    was created, [checkTempFile] returns the error of the retrieval with the
    File unchanged: the temporary file is neither closed nor removed, and
    since the File holds no reference to it, a later Close on the File makes
    no call on a temporary file either.  Read and Seek return that error
    with no byte and offset 0. *)
Theorem failed_retrieval_leaves_the_temporary_file (st : St) (name : string)
    (e : error) :
  tempFile (self st) = None ->
  os_TempFile os (log st) (temp_pattern os st) = Ok name ->
  get_answer os st = Err e ->
  checkTempFile os st
  = (Returns (Some e),
     {| self := self st;
        log := log st ++ [ETempFile (temp_pattern os st);
                          EGetObject (bucket (self st)) (key (self st))] |})
  /\ (forall n, fst (Read os n st) = Returns ([], 0, Some e))
  /\ (forall offset whence, fst (Seek os offset whence st) = Returns (0, Some e))
  /\ exists new,
      log (snd (Close os GetFileURI (snd (checkTempFile os st))))
      = log (snd (checkTempFile os st)) ++ new
      /\ count is_local new = 0%nat.
Proof.
  intros Ht Htmp Hget.
  assert (E : checkTempFile os st
              = (Returns (Some e),
                 {| self := self st;
                    log := log st ++ [ETempFile (temp_pattern os st);
                                      EGetObject (bucket (self st)) (key (self st))] |})).
  { unfold checkTempFile, copyToLocalTempReader, getObject, call, bind, get_self,
      get_log, put_self, emit, ret.
    unfold get_answer, temp_pattern in *.
    cbn [self log fst snd]. rewrite Ht. cbn [self log fst snd].
    rewrite Htmp. cbn [self log fst snd]. rewrite Hget.
    rewrite <- app_assoc. reflexivity. }
  split; [exact E |].
  split; [intros n; rewrite (Read_after_failure os st _ n e E); reflexivity |].
  split; [intros offset whence;
          rewrite (Seek_after_failure st _ offset whence e E); reflexivity |].
  rewrite E. cbn [snd].
  match goal with
  | |- context [Close os GetFileURI ?s] =>
      destruct (Close_calls os GetFileURI s) as (polls & Hp & Hl);
      rewrite Hl
  end.
  unfold removal_event, close_event, commit_event, remove_fails.
  cbn [self log]. rewrite Ht.
  eexists. split; [reflexivity |].
  rewrite app_nil_r. cbn [app].
  destruct (writeBuffer (self st)); rewrite ?count_app;
    rewrite (polls_count_nothing is_local polls);
    try reflexivity; try exact Hp; intros []; cbn; congruence.
Qed.

End MirrorCalls.

Lemma Read_and_Seek_share_the_mirror_witness :
  log (run_accesses os_ok [ASeek 0 0; ARead 5] (snd (Read os_ok 3 fresh)))
  = log (snd (Read os_ok 3 fresh)).
Proof.
  destruct (Read_and_Seek_share_the_mirror os_ok fresh [ASeek 0 0; ARead 5])
    as [H _].
  apply (H 3%nat (firstn 3 hello) 3). reflexivity.
Defined.

Lemma failed_retrieval_leaves_the_temporary_file_witness :
  fst (Read os_ok 3 stored) = Returns ([], 0, Some no_such_key).
Proof.
  destruct (failed_retrieval_leaves_the_temporary_file os_ok uri stored
              "/tmp/report.txt.0" no_such_key eq_refl eq_refl eq_refl)
    as (_ & H & _).
  apply H.
Defined.

(** ** The metadata queries *)

(** X14: LastModified asks for the metadata once, as Exists does, and
    succeeds exactly when Exists reports the object there.  It returns every
    error of the query as it is, also an error that is not an AWS error, on
    which Exists panics, and also the not-found errors, which Exists turns
    into [(false, nil)]. *)
Theorem LastModified_and_Exists (st : St) :
  snd (LastModified st) = head_logged st
  /\ snd (LastModified st) = snd (Exists st)
  /\ ((exists z, fst (LastModified st) = Returns (Ok z))
      <-> fst (Exists st) = Returns (true, None))
  /\ (forall e, head_answer st = Err e <-> fst (LastModified st) = Returns (Err e))
  /\ (forall e, head_answer st = Err e -> not_found_class e = true ->
                fst (Exists st) = Returns (false, None)
                /\ fst (LastModified st) = Returns (Err e)).
Proof.
  assert (HL : LastModified st
               = (match head_answer st with
                  | Ok h => Returns (Ok (LastModified_ h))
                  | Err e => Returns (Err e)
                  end, head_logged st)).
  { unfold LastModified, getHeadObject, call, bind, get_self, get_log, emit, ret,
      head_answer, head_logged.
    cbn [self log fst snd]. destruct (api_HeadObject _ _ _ _); reflexivity. }
  rewrite HL, Exists_run. cbn [fst snd].
  split; [reflexivity |]. split; [reflexivity |]. split; [| split].
  - destruct (head_answer st) as [h | e].
    + split; [reflexivity | eauto].
    + split; [intros [z H]; discriminate |].
      destruct (awserr_Code e); [destruct (not_found_class e) |]; discriminate.
  - intros e. destruct (head_answer st) as [h | e']; split; intros H;
      inversion H; reflexivity.
  - intros e -> Hn. unfold not_found_class in Hn |- *.
    destruct (awserr_Code e); [| discriminate]. rewrite Hn. split; reflexivity.
Qed.

Lemma LastModified_and_Exists_witness :
  fst (Exists absent_unwritten) = Returns (false, None)
  /\ fst (LastModified absent_unwritten) = Returns (Err not_found).
Proof.
  destruct (LastModified_and_Exists absent_unwritten) as (_ & _ & _ & _ & H).
  apply H; reflexivity.
Defined.

(** ** Copies *)

Section CopyCalls.

Variable os : OS.
Variable Scheme : string.
Variable GetFileURI : File -> string.
Variable TouchCopy : vfs_target -> M (option error).
Variable io_Copy : vfs_target -> M (Z * option error).

(** X15: the copy to a file of another backend goes step by step and stops
    at the first error.  If the stream copy returns an error, the target is
    not closed; if the close of the target returns an error, the File is not
    closed, so it keeps its mirror; and when the copy returns no error, the
    stream copy was made, the target was closed next, and the File has
    neither mirror nor buffer any more. *)
Theorem CopyToFile_to_another_backend (o : OtherFile) (st : St) :
  (forall e st1,
      TouchCopy (TargetOther o) st = (Returns (Some e), st1) ->
      CopyToFile os GetFileURI TouchCopy (TargetOther o) st
      = (Returns (Some e), st1))
  /\ (forall e st1,
        TouchCopy (TargetOther o) st = (Returns None, st1) ->
        of_Close o (log st1) = Some e ->
        CopyToFile os GetFileURI TouchCopy (TargetOther o) st
        = (Returns (Some e),
           {| self := self st1; log := log st1 ++ [EOtherClose (of_name o)] |}))
  /\ (forall st',
        CopyToFile os GetFileURI TouchCopy (TargetOther o) st = (Returns None, st') ->
        tempFile (self st') = None
        /\ writeBuffer (self st') = None
        /\ exists st1 new,
            TouchCopy (TargetOther o) st = (Returns None, st1)
            /\ of_Close o (log st1) = None
            /\ log st' = log st1 ++ EOtherClose (of_name o) :: new).
Proof.
  unfold CopyToFile, target_Close, call, bind, get_log, emit, ret.
  split; [intros e st1 H; rewrite H; reflexivity |].
  split; [intros e st1 H Hc; rewrite H; cbn [self log fst snd]; rewrite Hc;
          reflexivity |].
  intros st'.
  destruct (TouchCopy (TargetOther o) st) as [[[e |] |] st1]; try discriminate.
  cbn [self log fst snd].
  destruct (of_Close o (log st1)) as [e |] eqn:Hc; [discriminate |].
  match goal with
  | |- context [Close os GetFileURI ?s] =>
      pose proof (Close_without_error_releases_aux os GetFileURI s) as Hrel;
      destruct (Close_calls os GetFileURI s) as (polls & _ & Hl);
      destruct (Close os GetFileURI s) as [[[e |] |] st2]
  end; try discriminate.
  intros H. inversion H; subst st'. cbn [fst snd log] in Hrel, Hl.
  destruct (Hrel eq_refl) as [H1 H2].
  split; [exact H1 | split; [exact H2 |]].
  exists st1. eexists. split; [reflexivity | split; [exact Hc |]].
  rewrite Hl, <- app_assoc. reflexivity.
Qed.

(** X16: a copy within S3 moves no byte through the process.  CopyToFile to
    a File of this package and CopyToLocation to a location of this scheme
    leave the File as it is and make one CopyObject request and nothing
    else, whatever the stream copies would do.  When that request succeeds
    and the file system of the location then refuses the new file,
    CopyToLocation returns that error and no handle although the object was
    copied, and MoveToLocation does not delete the source. *)
Theorem copy_within_S3_is_one_request (tf : File) (location : vfs_Location)
    (st : St) :
  CopyToFile os GetFileURI TouchCopy (TargetS3 tf) st
  = (Returns (copy_answer os st (bucket tf) (key tf)),
     {| self := self st;
        log := log st ++ [copy_event os st (bucket tf) (key tf)] |})
  /\ (String.eqb (loc_Scheme location) Scheme = true ->
      snd (CopyToLocation os Scheme GetFileURI io_Copy location st)
      = {| self := self st;
           log := log st
                  ++ [copy_event os st (loc_Volume location)
                        (path_Join os (loc_Path location) (Name os (self st)))] |}
      /\ forall e,
          copy_answer os st (loc_Volume location)
                      (path_Join os (loc_Path location) (Name os (self st))) = None ->
          loc_NewFile location (loc_Volume location)
                      (path_Join os (loc_Path location) (Name os (self st))) = Err e ->
          fst (CopyToLocation os Scheme GetFileURI io_Copy location st)
          = Returns (None, Some e)
          /\ MoveToLocation os Scheme GetFileURI io_Copy location st
             = CopyToLocation os Scheme GetFileURI io_Copy location st).
Proof.
  split; [reflexivity |].
  intros Hs. unfold MoveToLocation, CopyToLocation. rewrite Hs.
  unfold copyWithinS3ToLocation, call, bind, get_self, get_log, emit, ret,
    copy_answer, copy_event.
  cbn [self log fst snd]. split.
  - destruct (api_CopyObject _ _ _ _ _); [reflexivity |].
    destruct (loc_NewFile _ _ _); reflexivity.
  - intros e Hc Hn. rewrite Hc, Hn. split; reflexivity.
Qed.

(** X17: a move to a File of this package, when its copy succeeds, is the
    CopyObject request followed by the calls of Delete: it uploads nothing
    and retrieves nothing, so what was written to the source and not
    committed is dropped, and it asks at most once for the deletion of the
    source. *)
Theorem move_within_S3_drops_pending_writes (tf : File) (st : St) :
  copy_answer os st (bucket tf) (key tf) = None ->
  writeBuffer (self (snd (MoveToFile os GetFileURI TouchCopy (TargetS3 tf) st)))
  = None
  /\ exists new,
      log (snd (MoveToFile os GetFileURI TouchCopy (TargetS3 tf) st))
      = log st ++ copy_event os st (bucket tf) (key tf) :: new
      /\ count is_upload new = 0%nat
      /\ count is_get new = 0%nat
      /\ (count is_delete new <= 1)%nat.
Proof.
  intros Hc. rewrite MoveToFile_run, CopyToFile_native, Hc.
  match goal with
  | |- context [Delete os GetFileURI ?s] =>
      destruct (Delete_calls os GetFileURI s) as (Hb & new & Hl & Hu & Hg & Hd)
  end.
  split; [exact Hb |].
  exists new. rewrite Hl. cbn [log]. rewrite <- app_assoc.
  repeat split; assumption.
Qed.

End CopyCalls.

Lemma CopyToFile_to_another_backend_witness :
  CopyToFile os_ok uri copy_fails (TargetOther elsewhere) read_and_written
  = (Returns (Some broken_pipe), read_and_written).
Proof.
  destruct (CopyToFile_to_another_backend os_ok uri copy_fails elsewhere
              read_and_written) as [H _].
  apply H. reflexivity.
Defined.

Lemma copy_within_S3_is_one_request_witness :
  snd (CopyToLocation os_ok s3_scheme uri io_copy_nothing
         (archive (client_copy None None)) failing_delete)
  = {| self := self failing_delete;
       log := [ECopyObject "archive" "2024/report.txt" "docs/a/b/report.txt"] |}.
Proof.
  destruct (copy_within_S3_is_one_request os_ok s3_scheme uri copy_nothing
              io_copy_nothing (self fresh) (archive (client_copy None None))
              failing_delete) as [_ H].
  apply H. reflexivity.
Defined.

Lemma move_within_S3_drops_pending_writes_witness :
  writeBuffer
    (self (snd (MoveToFile os_ok uri copy_nothing (TargetS3 (self fresh))
                           read_and_written)))
  = None.
Proof.
  apply (move_within_S3_drops_pending_writes os_ok uri copy_nothing (self fresh)
           read_and_written).
  reflexivity.
Defined.

(** ** The commit and the deletion, counted *)

Section Counted.

Variable os : OS.
Variable GetFileURI : File -> string.

Lemma Close_never_deletes (st : St) :
  exists new,
    log (snd (Close os GetFileURI st)) = log st ++ new
    /\ count is_delete new = 0%nat.
Proof.
  destruct (Close_calls os GetFileURI st) as (polls & Hp & Hl).
  eexists. split; [exact Hl |].
  rewrite !count_app.
  rewrite (polls_count_nothing is_delete polls);
    [| intros []; cbn; congruence | exact Hp].
  unfold removal_event, close_event, commit_event, upload_event, count.
  destruct (tempFile (self st)); destruct (remove_fails os st);
    destruct (writeBuffer (self st)); reflexivity.
Qed.

(** X9: Delete asks for the deletion of the object exactly when the Close
    it makes first returns no error: an error or a panic of that Close
    leaves the object where it is. *)
Theorem Delete_deletes_iff_Close_succeeds (st : St) :
  exists new,
    log (snd (Delete os GetFileURI st)) = log st ++ new
    /\ (count is_delete new = 1%nat
        <-> fst (Close os GetFileURI
                   {| self := set_writeBuffer (self st) None; log := log st |})
            = Returns None)
    /\ (count is_delete new = 0%nat
        <-> fst (Close os GetFileURI
                   {| self := set_writeBuffer (self st) None; log := log st |})
            <> Returns None).
Proof.
  rewrite Delete_run.
  destruct (Close_never_deletes
              {| self := set_writeBuffer (self st) None; log := log st |})
    as (new & Hl & Hd).
  destruct (Close os GetFileURI _) as [[[e |] |] st1]; cbn [fst snd log] in Hl |- *.
  - exists new. split; [exact Hl |]. rewrite Hd.
    split; split; try discriminate; try reflexivity; intros H; try lia.
  - exists (new ++ [EDeleteObject (bucket (self st1)) (key (self st1))]).
    split; [rewrite Hl, <- app_assoc; reflexivity |].
    rewrite count_app, Hd. cbn.
    split; split; try reflexivity; try discriminate.
    intros H. now elim H.
  - exists new. split; [exact Hl |]. rewrite Hd.
    split; split; try discriminate; try reflexivity; intros H; try lia.
Qed.

(** X18: the writes of a session are committed by one upload.  After writes
    to a File without mirror and buffer, the calls of Close are the upload,
    to the bucket and key of the File and with the directive AES256, of the
    concatenation of what was written, followed only by the metadata queries
    and sleeps of the poll. *)
Theorem writes_are_committed_by_one_upload (st : St) (d : list Byte.byte)
    (l : list (list Byte.byte)) :
  tempFile (self st) = None ->
  writeBuffer (self st) = None ->
  exists polls,
    forallb is_poll polls = true
    /\ log (snd (Close os GetFileURI (run_writes (d :: l) st)))
       = log st ++ EUpload (bucket (self st)) (key (self st)) "AES256"
                           (concat (d :: l)) :: polls.
Proof.
  intros Ht Hb.
  destruct (Close_calls os GetFileURI (run_writes (d :: l) st))
    as (polls & Hp & Hl).
  exists polls. split; [exact Hp |]. rewrite Hl.
  unfold removal_event, close_event, commit_event, remove_fails, upload_event.
  rewrite run_writes_log, run_writes_self. cbn [tempFile writeBuffer set_writeBuffer
                                                 bucket key].
  rewrite Ht. unfold buffered. rewrite Hb. cbn [app]. rewrite app_nil_r.
  reflexivity.
Qed.

End Counted.

Lemma writes_are_committed_by_one_upload_witness :
  exists polls,
    forallb is_poll polls = true
    /\ log (snd (Close os_ok uri (run_writes [hello; world] stored)))
       = log stored ++ EUpload (bucket (self stored)) (key (self stored)) "AES256"
                               (concat [hello; world]) :: polls.
Proof.
  apply (writes_are_committed_by_one_upload os_ok uri stored hello [world]);
    reflexivity.
Defined.

(** ** The mirror, from one Close to the next *)

(** C7, as stated, fails: one File is read, closed and read again, each call
    returning without error; the File has its mirror after the first Read,
    none after the Close, and the second Read retrieves the object again:
    two retrievals for one instance. *)
Lemma mirror_materialized_twice_counterexample :
  fst (Read os_ok 3 fresh) = Returns (firstn 3 hello, 3, None)
  /\ tempFile (self read_once) <> None
  /\ fst (Close os_ok uri read_once) = Returns None
  /\ tempFile (self read_closed) = None
  /\ fst (Read os_ok 3 read_closed) = Returns (firstn 3 hello, 3, None)
  /\ same_identity (self fresh) (self read_again)
  /\ count is_get (log read_once) = 1%nat
  /\ count is_get (log read_again) = 2%nat.
Proof. vm_compute. repeat split. discriminate. Qed.

Section MirrorSessions.

Variable os : OS.
Variable GetFileURI : File -> string.

Lemma checkTempFile_materializes (st : St) (name : string)
    (body : list Byte.byte) :
  tempFile (self st) = None ->
  materialization_succeeds os st name body ->
  checkTempFile os st = (Returns None, materialized os st name body).
Proof.
  intros Ht (H1 & H2 & H3 & H4).
  unfold checkTempFile, copyToLocalTempReader, getObject, call, bind, get_self,
    get_log, put_self, emit, ret.
  unfold materialization_events in *. unfold get_answer, temp_pattern in *.
  cbn [firstn] in H3, H4.
  cbn [self log fst snd]. rewrite Ht. cbn [self log fst snd].
  rewrite H1. cbn [self log fst snd]. rewrite H2. cbn [self log fst snd].
  rewrite <- !app_assoc. cbn [app]. rewrite H3. cbn [self log fst snd].
  rewrite <- !app_assoc. cbn [app]. rewrite H4. cbn [self log fst snd].
  unfold materialized, materialization_events, temp_pattern, fresh_mirror.
  rewrite <- ?app_assoc. reflexivity.
Qed.

Lemma checkTempFile_retrieval_failed (st : St) (name : string) (e : error) :
  tempFile (self st) = None ->
  os_TempFile os (log st) (temp_pattern os st) = Ok name ->
  get_answer os st = Err e ->
  checkTempFile os st
  = (Returns (Some e),
     {| self := self st;
        log := log st ++ [ETempFile (temp_pattern os st);
                          EGetObject (bucket (self st)) (key (self st))] |}).
Proof.
  intros Ht Htmp Hget.
  unfold checkTempFile, copyToLocalTempReader, getObject, call, bind, get_self,
    get_log, put_self, emit, ret.
  unfold get_answer, temp_pattern in *.
  cbn [self log fst snd]. rewrite Ht. cbn [self log fst snd].
  rewrite Htmp. cbn [self log fst snd]. rewrite Hget.
  rewrite <- app_assoc. reflexivity.
Qed.

(** Without a mirror, a Read and a Seek start a materialization. *)
Lemma access_absent_starts (st : St) :
  tempFile (self st) = None ->
  (forall n, exists rest,
        log (snd (Read os n st))
        = log st ++ ETempFile (temp_pattern os st) :: rest)
  /\ (forall offset whence, exists rest,
        log (snd (Seek os offset whence st))
        = log st ++ ETempFile (temp_pattern os st) :: rest).
Proof.
  intros Ht.
  destruct (checkTempFile_absent os st Ht) as [[rest Hl] Hc].
  destruct (checkTempFile os st) as [[[e |] |] st'] eqn:E;
    cbn [fst snd] in Hl, Hc; [| | contradiction].
  - split.
    + intros n. rewrite (Read_after_failure os st st' n e E). eauto.
    + intros offset whence.
      rewrite (Seek_after_failure os st st' offset whence e E). eauto.
  - destruct Hc as (name & body & _ & Hs & _).
    assert (Ht' : tempFile (self st')
                  = Some {| tf_name := name; tf_data := body; tf_pos := 0 |})
      by (rewrite Hs; reflexivity).
    split.
    + intros n. rewrite (Read_after_materialization os st st' n _ E Ht').
      rewrite (Read_present os st' _ n Ht'). eauto.
    + intros offset whence.
      rewrite (Seek_after_materialization os st st' offset whence _ E Ht').
      rewrite (Seek_present os st' _ offset whence Ht'). eauto.
Qed.

Lemma Close_clears_the_mirror (st : St) :
  remove_fails os st = false ->
  tempFile (self (snd (Close os GetFileURI st))) = None.
Proof.
  intros Hrf. rewrite (Close_past_mirror os GetFileURI st Hrf).
  destruct (Close_commit_self GetFileURI NewMutliErr (mirror_released st))
    as [_ Ht].
  destruct (Close_commit GetFileURI NewMutliErr (mirror_released st))
    as [[r errs1] st1].
  destruct (run_deferred_spec os (tempFile (self st)) errs1 st1) as [Hd _].
  destruct (run_deferred os (tempFile (self st)) errs1 st1) as [errs2 st2].
  cbn [fst snd] in Ht, Hd |- *.
  destruct r; cbn [snd]; rewrite Hd, Ht; apply mirror_released_mirror.
Qed.

(** C7 (amended): from one Close to the next the mirror of a File is
    materialized at most once.  On a File without mirror, when the creation
    of the temporary file, the retrieval, the copy and the return of the
    cursor succeed, [checkTempFile] makes exactly these four calls, one
    retrieval among them, and sets the mirror to the whole body with the
    cursor at offset 0; the first Read and the first Seek then work on that
    mirror and make no other call, and a first Read without error returns the
    first bytes of the body.  A File that has its mirror does not fetch
    again: [checkTempFile] does nothing, and any session of Read and Seek
    calls logs no call and keeps the mirror's name and content.  If the
    materialization fails, the mirror reference stays nil, Read and Seek
    return the error, and the next Read or Seek starts a materialization
    again.  Close clears the mirror reference unless the removal of the
    temporary file fails, so a Read or Seek after it materializes anew. *)
Theorem mirror_is_materialized_once_per_session (st : St) :
  (forall name body,
      tempFile (self st) = None ->
      materialization_succeeds os st name body ->
      checkTempFile os st = (Returns None, materialized os st name body)
      /\ count is_get (materialization_events os st name body) = 1%nat
      /\ (forall n,
            Read os n st
            = (Returns (snd (OsFile_Read (fresh_mirror name body) n)),
               {| self := set_tempFile (self st)
                            (Some (fst (OsFile_Read (fresh_mirror name body) n)));
                  log := log st ++ materialization_events os st name body |}))
      /\ (forall offset whence,
            Seek os offset whence st
            = (Returns (snd (OsFile_Seek (fresh_mirror name body) offset whence)),
               {| self := set_tempFile (self st)
                            (Some (fst (OsFile_Seek (fresh_mirror name body)
                                                    offset whence)));
                  log := log st ++ materialization_events os st name body |}))
      /\ (forall n got k,
            fst (Read os n st) = Returns (got, k, None) ->
            got = firstn n body /\ k = Z.of_nat (length got)))
  /\ (forall tf,
        tempFile (self st) = Some tf ->
        checkTempFile os st = (Returns None, st)
        /\ forall l,
            log (run_accesses os l st) = log st
            /\ exists tf', tempFile (self (run_accesses os l st)) = Some tf'
                           /\ tf_name tf' = tf_name tf
                           /\ tf_data tf' = tf_data tf)
  /\ (forall name e,
        tempFile (self st) = None ->
        os_TempFile os (log st) (temp_pattern os st) = Ok name ->
        get_answer os st = Err e ->
        checkTempFile os st
        = (Returns (Some e),
           {| self := self st;
              log := log st ++ [ETempFile (temp_pattern os st);
                                EGetObject (bucket (self st)) (key (self st))] |}))
  /\ (forall e st',
        tempFile (self st) = None ->
        checkTempFile os st = (Returns (Some e), st') ->
        self st' = self st
        /\ (forall n, Read os n st = (Returns ([], 0, Some e), st'))
        /\ (forall offset whence,
              Seek os offset whence st = (Returns (0, Some e), st'))
        /\ (forall m, exists rest,
              log (snd (Read os m st'))
              = log st' ++ ETempFile (temp_pattern os st') :: rest)
        /\ (forall offset whence, exists rest,
              log (snd (Seek os offset whence st'))
              = log st' ++ ETempFile (temp_pattern os st') :: rest))
  /\ (remove_fails os st = false ->
      tempFile (self (snd (Close os GetFileURI st))) = None
      /\ (forall n, exists rest,
            log (snd (Read os n (snd (Close os GetFileURI st))))
            = log (snd (Close os GetFileURI st))
              ++ ETempFile (temp_pattern os (snd (Close os GetFileURI st))) :: rest)
      /\ (forall offset whence, exists rest,
            log (snd (Seek os offset whence (snd (Close os GetFileURI st))))
            = log (snd (Close os GetFileURI st))
              ++ ETempFile (temp_pattern os (snd (Close os GetFileURI st))) :: rest)).
Proof.
  split; [| split; [| split; [| split]]].
  - intros name body Ht Hm.
    pose proof (checkTempFile_materializes st name body Ht Hm) as E.
    assert (Ht' : tempFile (self (materialized os st name body))
                  = Some (fresh_mirror name body)) by reflexivity.
    split; [exact E |]. split; [reflexivity |].
    assert (HR : forall n,
               Read os n st
               = (Returns (snd (OsFile_Read (fresh_mirror name body) n)),
                  {| self := set_tempFile (self st)
                               (Some (fst (OsFile_Read (fresh_mirror name body) n)));
                     log := log st ++ materialization_events os st name body |})).
    { intros n. rewrite (Read_after_materialization os st _ n _ E Ht').
      rewrite (Read_present os _ _ n Ht'). reflexivity. }
    split; [exact HR |]. split.
    + intros offset whence.
      rewrite (Seek_after_materialization os st _ offset whence _ E Ht').
      rewrite (Seek_present os _ _ offset whence Ht'). reflexivity.
    + intros n got k Hr.
      destruct (first_Read_reads_from_the_start os st n got k Ht Hr)
        as (body' & Hg & Hgot & Hk).
      destruct Hm as (_ & Hg' & _). rewrite Hg' in Hg. inversion Hg; subst body'.
      split; assumption.
  - intros tf H. split; [exact (checkTempFile_present os st tf H) |].
    intros l. exact (run_accesses_present os l st tf H).
  - intros name e. exact (checkTempFile_retrieval_failed st name e).
  - intros e st' Ht E.
    destruct (checkTempFile_absent os st Ht) as [_ Hc].
    rewrite E in Hc. cbn [fst snd] in Hc.
    assert (Ht' : tempFile (self st') = None) by (rewrite Hc; exact Ht).
    split; [exact Hc |].
    split; [intros n; exact (Read_after_failure os st st' n e E) |].
    split; [intros offset whence;
            exact (Seek_after_failure os st st' offset whence e E) |].
    exact (access_absent_starts st' Ht').
  - intros Hrf. pose proof (Close_clears_the_mirror st Hrf) as Hc.
    split; [exact Hc |]. exact (access_absent_starts _ Hc).
Qed.

End MirrorSessions.

Lemma fresh_materialization_succeeds :
  materialization_succeeds os_ok fresh "/tmp/report.txt.0" hello.
Proof. repeat split. Qed.

Lemma mirror_is_materialized_once_per_session_witness :
  checkTempFile os_ok fresh
  = (Returns None, materialized os_ok fresh "/tmp/report.txt.0" hello)
  /\ log (run_accesses os_ok [ARead 3; ASeek 0 0; ARead 5] read_once)
     = log read_once.
Proof.
  split.
  - destruct (mirror_is_materialized_once_per_session os_ok uri fresh)
      as (H & _).
    apply (H "/tmp/report.txt.0" hello eq_refl fresh_materialization_succeeds).
  - destruct (mirror_is_materialized_once_per_session os_ok uri read_once)
      as (_ & H & _).
    destruct (H {| tf_name := "/tmp/report.txt.0"; tf_data := hello; tf_pos := 3 |}
                eq_refl) as [_ Hl].
    exact (proj1 (Hl [ARead 3; ASeek 0 0; ARead 5])).
Defined.
